(** * Schema-migration provider: a shallow embedding of [index.ts]

    Part one holds the definitions:
    - the runtime pieces the program calls ([crypto], [path], [fs],
      the configuration, the [pg] client, the console and the clock);
    - [FileMigrationManager]: discovery of the migration files and the
      construction of the chained [SchemaVersion] resources;
    - the dynamic resource provider: [create], [diff], [update],
      [delete], [read];
    - the predicates of the statements and a scripted outside on which
      the operations run.
    Part two holds the facts proved of them.

    A JavaScript string is modelled as the [string] of its UTF-8
    bytes: a file's text is the sequence of its bytes, a file name the
    bytes of the name.  Where the language works on UTF-16 code units
    (the line terminators of a regular expression, the order of the
    default [sort]) the definitions say so on the bytes. *)

From Stdlib Require Import List Bool Arith NArith Lia.
From Stdlib Require Import String Ascii DecimalString.
From Stdlib Require Import Permutation Sorted.
Import ListNotations.
Local Open Scope string_scope.

(** ** [crypto.createHash('sha256').update(text).digest('hex')] *)

Module Sha256.
Local Open Scope N_scope.

(** 32-bit words are numbers of [N], wrapped by [mask32]. *)
Definition mask32 (x : N) : N := N.land x 0xffffffff.
Definition add32 (x y : N) : N := mask32 (x + y).
Definition rotr (n x : N) : N :=
  N.lor (N.shiftr x n) (mask32 (N.shiftl x (32 - n))).

Definition ch (x y z : N) : N :=
  N.lxor (N.land x y) (N.land (N.lxor x 0xffffffff) z).
Definition maj (x y z : N) : N :=
  N.lxor (N.lxor (N.land x y) (N.land x z)) (N.land y z).
Definition bsig0 (x : N) : N := N.lxor (N.lxor (rotr 2 x) (rotr 13 x)) (rotr 22 x).
Definition bsig1 (x : N) : N := N.lxor (N.lxor (rotr 6 x) (rotr 11 x)) (rotr 25 x).
Definition ssig0 (x : N) : N := N.lxor (N.lxor (rotr 7 x) (rotr 18 x)) (N.shiftr x 3).
Definition ssig1 (x : N) : N := N.lxor (N.lxor (rotr 17 x) (rotr 19 x)) (N.shiftr x 10).

(** The constants are fractional parts of roots of the first primes,
    on 32 bits: of the cube roots of the first 64 for the rounds, of
    the square roots of the first 8 for the initial state. *)
Definition is_prime (n : N) : bool :=
  forallb (fun d => negb (n mod N.of_nat d =? 0)) (seq 2 (N.to_nat n - 2)).

Definition first_primes : list N :=
  Eval vm_compute in filter is_prime (map N.of_nat (seq 2 310)).

(** The integer cube root, one bit at a time from bit [bits] down. *)
Fixpoint cube_root_from (bits : nat) (x r : N) : N :=
  match bits with
  | O => r
  | S b =>
      let c := r + N.shiftl 1 (N.of_nat b) in
      if c * c * c <=? x then cube_root_from b x c else cube_root_from b x r
  end.

Definition K : list N :=
  Eval vm_compute in
    map (fun p => mask32 (cube_root_from 40 (N.shiftl p 96) 0)) first_primes.

Definition initial_words : list N :=
  Eval vm_compute in
    map (fun p => mask32 (N.sqrt (N.shiftl p 64))) (firstn 8 first_primes).

Definition H0 : N * N * N * N * N * N * N * N :=
  match initial_words with
  | [a; b; c; d; e; f; g; h] => (a, b, c, d, e, f, g, h)
  | _ => (0, 0, 0, 0, 0, 0, 0, 0)
  end.

(** The [n] low bytes of [x], most significant first. *)
Fixpoint be_bytes (n : nat) (x : N) : list N :=
  match n with
  | O => []
  | S k => N.shiftr x (8 * N.of_nat k) mod 256 :: be_bytes k x
  end.

(** Message padding: a [0x80] byte, zero bytes up to 56 modulo 64, and
    the bit length on 8 bytes. *)
Definition pad (msg : list N) : list N :=
  let len := List.length msg in
  let zeros := ((119 - len mod 64) mod 64)%nat in
  (msg ++ [0x80] ++ repeat 0 zeros ++ be_bytes 8 (8 * N.of_nat len))%list.

Fixpoint words (bs : list N) : list N :=
  match bs with
  | b0 :: b1 :: b2 :: b3 :: rest =>
      (N.shiftl b0 24 + N.shiftl b1 16 + N.shiftl b2 8 + b3) :: words rest
  | _ => []
  end.

Fixpoint blocks (fuel : nat) (ws : list N) : list (list N) :=
  match fuel, ws with
  | S f, _ :: _ => firstn 16 ws :: blocks f (skipn 16 ws)
  | _, _ => []
  end.

(** The message schedule, built newest word first. *)
Fixpoint extend (n : nat) (rev_w : list N) : list N :=
  match n with
  | O => rev_w
  | S k =>
      let w := add32 (add32 (ssig1 (nth 1 rev_w 0)) (nth 6 rev_w 0))
                     (add32 (ssig0 (nth 14 rev_w 0)) (nth 15 rev_w 0)) in
      extend k (w :: rev_w)
  end.

Definition schedule (block : list N) : list N := rev (extend 48 (rev block)).

Definition state : Type := N * N * N * N * N * N * N * N.

Definition round (s : state) (kw : N * N) : state :=
  let '(a, b, c, d, e, f, g, h) := s in
  let '(k, w) := kw in
  let t1 := add32 (add32 (add32 (add32 h (bsig1 e)) (ch e f g)) k) w in
  let t2 := add32 (bsig0 a) (maj a b c) in
  (add32 t1 t2, a, b, c, add32 d t1, e, f, g).

Definition compress (s : state) (block : list N) : state :=
  let '(a, b, c, d, e, f, g, h) := s in
  let '(a', b', c', d', e', f', g', h') :=
    fold_left round (combine K (schedule block)) s in
  (add32 a a', add32 b b', add32 c c', add32 d d',
   add32 e e', add32 f f', add32 g g', add32 h h').

Definition hex_digit (d : N) : ascii :=
  nth (N.to_nat d) (list_ascii_of_string "0123456789abcdef") "0"%char.

(** [n] hexadecimal digits of [x], most significant first. *)
Fixpoint hex (n : nat) (x : N) : string :=
  match n with
  | O => EmptyString
  | S k => String (hex_digit (N.shiftr x (4 * N.of_nat k) mod 16)) (hex k x)
  end.

Definition digest_hex (text : string) : string :=
  let bytes := map N_of_ascii (list_ascii_of_string text) in
  let ws := words (pad bytes) in
  let '(a, b, c, d, e, f, g, h) :=
    fold_left compress (blocks (List.length ws) ws) H0 in
  hex 8 a ++ hex 8 b ++ hex 8 c ++ hex 8 d ++
  hex 8 e ++ hex 8 f ++ hex 8 g ++ hex 8 h.

End Sha256.

Definition sha256 (text : string) : string := Sha256.digest_hex text.

(** ** Strings *)

(** A string is truthy in JavaScript when it is not empty. *)
Definition truthy (s : string) : bool :=
  match s with EmptyString => false | String _ _ => true end.

Fixpoint strip_prefix (prefix s : string) : option string :=
  match prefix, s with
  | EmptyString, _ => Some s
  | String a p, String b r => if (a =? b)%char then strip_prefix p r else None
  | String _ _, EmptyString => None
  end.

Fixpoint strip_suffix (suffix s : string) : option string :=
  if (s =? suffix) then Some EmptyString
  else match s with
       | EmptyString => None
       | String c r => option_map (String c) (strip_suffix suffix r)
       end.

Fixpoint string_map (f : ascii -> ascii) (s : string) : string :=
  match s with
  | EmptyString => EmptyString
  | String c r => String (f c) (string_map f r)
  end.

Fixpoint string_exists (p : ascii -> bool) (s : string) : bool :=
  match s with
  | EmptyString => false
  | String c r => p c || string_exists p r
  end.

(** Decimal rendering of a number inside a template literal. *)
Definition decimal (n : N) : string := NilEmpty.string_of_uint (N.to_uint n).

(** ** [path] *)

(** [path.join(dir, file)] for a normalised [dir] without a trailing
    separator and a [file] that is a single segment, which is how the
    program calls it (with [__dirname], ["sql"] and directory entries). *)
Definition path_join (dir file : string) : string := dir ++ "/" ++ file.

Definition is_slash (c : ascii) : bool := (c =? "/")%char.

Fixpoint last_segment (p : string) : string :=
  match p with
  | EmptyString => EmptyString
  | String c r =>
      if string_exists is_slash r then last_segment r
      else if is_slash c then r else p
  end.

(** [path.basename(p, ext)]: the last segment of [p], without [ext]
    when it ends with it (and is not [ext] itself). *)
Definition path_basename (p ext : string) : string :=
  let base := last_segment p in
  match strip_suffix ext base with
  | Some (String c r) => String c r
  | _ => base
  end.

(** ** [Array.prototype.sort]

    The sort of the language is stable; [compareFn x y] below zero is
    [Lt], zero is [Eq], above zero is [Gt].  Insertion from the right
    end, each element being put before the first one it does not
    exceed, is such a stable sort. *)

Section ArraySort.
Context {A : Type} (compareFn : A -> A -> comparison).

Definition not_after (x y : A) : bool :=
  match compareFn x y with Gt => false | _ => true end.

Fixpoint insert_sorted (x : A) (l : list A) : list A :=
  match l with
  | [] => [x]
  | y :: r => if not_after x y then x :: l else y :: insert_sorted x r
  end.

Fixpoint Array_sort (l : list A) : list A :=
  match l with
  | [] => []
  | x :: r => insert_sorted x (Array_sort r)
  end.
End ArraySort.

(** ** [String.prototype.localeCompare] with [{ numeric: true }]

    On strings of decimal digits, which is all the program compares
    with it, numeric collation orders by the number denoted, leading
    zeros being ignored (the collation library reads a run of digits
    as one number up to 254 digits). *)

Definition digit_value (c : ascii) : N := (N_of_ascii c - 48)%N.

Fixpoint numeric_value_from (acc : N) (s : string) : N :=
  match s with
  | EmptyString => acc
  | String c r => numeric_value_from (10 * acc + digit_value c)%N r
  end.

Definition numeric_value (s : string) : N := numeric_value_from 0 s.

Definition localeCompare_numeric (a b : string) : comparison :=
  (numeric_value a ?= numeric_value b)%N.

(** ** Discovery of the migration files *)

Module MigrationFile.
Record t : Type := make
  { version : string;
    name : string;
    upPath : string;
    downPath : option string }.

Definition set_upPath (p : string) (m : t) : t :=
  {| version := version m; name := name m; upPath := p; downPath := downPath m |}.
Definition set_downPath (p : string) (m : t) : t :=
  {| version := version m; name := name m; upPath := upPath m; downPath := Some p |}.
End MigrationFile.

Inductive direction : Type := up | down.

Definition is_digit (c : ascii) : bool :=
  let n := nat_of_ascii c in (48 <=? n)%nat && (n <=? 57)%nat.

(** [.] of a regular expression matches every character but the line
    terminators: LF, CR, U+2028 and U+2029.  In UTF-8 the first two are
    the bytes 10 and 13, the last two the bytes 226 128 168 and
    226 128 169.  [starts_line_terminator s] tells whether [s] begins
    with one, [has_line_terminator s] whether one occurs in [s]. *)
Definition starts_line_terminator (s : string) : bool :=
  match s with
  | EmptyString => false
  | String c r =>
      ((c =? "010") || (c =? "013"))%char
      || ((c =? "226")%char
          && match r with
             | String c1 (String c2 _) =>
                 ((c1 =? "128") && ((c2 =? "168") || (c2 =? "169")))%char
             | _ => false
             end)
  end.

Fixpoint has_line_terminator (s : string) : bool :=
  match s with
  | EmptyString => false
  | String c r => starts_line_terminator (String c r) || has_line_terminator r
  end.

Fixpoint span_digits (s : string) : string * string :=
  match s with
  | EmptyString => (EmptyString, EmptyString)
  | String c r =>
      if is_digit c
      then let (digits, rest) := span_digits r in (String c digits, rest)
      else (EmptyString, s)
  end.

(** [file.match(/^V(\d+)__(.+)\.(up|down)\.sql$/)]: the captures
    [(version, description, direction)], or [None] for [null].  [\d+]
    takes the longest run of digits (a shorter one is followed by a
    digit, never by [__]); the expression being anchored at both ends,
    the direction is read off the end of the name and the description
    is what lies between, one character at least and no line
    terminator. *)
Definition match_migration (file : string) : option (string * string * direction) :=
  match strip_prefix "V" file with
  | None => None
  | Some rest =>
      let (version, rest) := span_digits rest in
      match version, strip_prefix "__" rest with
      | String _ _, Some tail =>
          if has_line_terminator tail then None
          else match strip_suffix ".up.sql" tail, strip_suffix ".down.sql" tail with
               | Some (String c d), _ => Some (version, String c d, up)
               | _, Some (String c d) => Some (version, String c d, down)
               | _, _ => None
               end
      | _, _ => None
      end
  end.

(** [description.replace(/_/g, '-')] *)
Definition replace_underscores (description : string) : string :=
  string_map (fun c => if (c =? "_")%char then "-"%char else c) description.

(** A [Map] keeps its keys in the order of their first insertion;
    [values()] lists the values in that order. *)
Definition MigrationMap : Type := list (string * MigrationFile.t).

Fixpoint map_has (key : string) (m : MigrationMap) : bool :=
  match m with
  | [] => false
  | (k, _) :: r => (k =? key) || map_has key r
  end.

(** [set] of a key that is not in the map. *)
Definition map_set (key : string) (v : MigrationFile.t) (m : MigrationMap) : MigrationMap :=
  (m ++ [(key, v)])%list.

(** Assignment to a field of the object that [get(key)] returns: the
    object stays where it is in the map. *)
Fixpoint map_modify (key : string) (f : MigrationFile.t -> MigrationFile.t)
    (m : MigrationMap) : MigrationMap :=
  match m with
  | [] => []
  | (k, v) :: r =>
      if (k =? key) then (k, f v) :: r else (k, v) :: map_modify key f r
  end.

Definition map_values (m : MigrationMap) : list MigrationFile.t := map snd m.

(** One iteration of [for (const file of files)]. *)
Definition load_file (migrationsPath : string) (migrationMap : MigrationMap)
    (file : string) : MigrationMap :=
  match match_migration file with
  | Some (version, description, direction) =>
      let key := "V" ++ version ++ "__" ++ description in
      let migrationMap :=
        if map_has key migrationMap then migrationMap
        else map_set key
               {| MigrationFile.version := version;
                  MigrationFile.name := replace_underscores description;
                  MigrationFile.upPath := "";
                  MigrationFile.downPath := None |} migrationMap in
      let filePath := path_join migrationsPath file in
      match direction with
      | up => map_modify key (MigrationFile.set_upPath filePath) migrationMap
      | down => map_modify key (MigrationFile.set_downPath filePath) migrationMap
      end
  | None => migrationMap
  end.

Definition compare_versions (a b : MigrationFile.t) : comparison :=
  localeCompare_numeric (MigrationFile.version a) (MigrationFile.version b).

(** The default order of [sort], which is that of [<] on strings,
    compares UTF-16 code units.  On UTF-8 bytes it is the order of the
    bytes but for one thing: the characters U+E000 to U+FFFF (first
    byte 238 or 239) are single code units above the surrogates, so
    they come after the characters beyond U+FFFF (first byte 240 to
    244).  [code_unit_rank] moves the bytes 238 and 239 above those
    (in exchange with 254 and 255, which no UTF-8 text contains). *)
Definition code_unit_rank (c : ascii) : ascii :=
  if (c =? "238")%char then "254"%char
  else if (c =? "239")%char then "255"%char
  else if (c =? "254")%char then "238"%char
  else if (c =? "255")%char then "239"%char
  else c.

Definition compare_code_units (a b : string) : comparison :=
  String.compare (string_map code_unit_rank a) (string_map code_unit_rank b).

(** The catalog that [loadMigrationFiles] stores in [migrationFiles],
    from the directory listing [entries] as [readdirSync] returns it. *)
Definition catalog (migrationsPath : string) (entries : list string)
    : list MigrationFile.t :=
  let files := Array_sort compare_code_units entries in
  let migrationMap := fold_left (load_file migrationsPath) files [] in
  Array_sort compare_versions
    (filter (fun m => truthy (MigrationFile.upPath m)) (map_values migrationMap)).


(** ** Thrown values, the console, the file system, the configuration *)

(** Every value thrown here is an [Error] object: the program throws
    [new Error(message)], the libraries throw errors of their own
    names. *)
Record exn : Type := { error_name : string; error_message : string }.

Definition new_Error (message : string) : exn :=
  {| error_name := "Error"; error_message := message |}.

(** [`${error}`], which is [Error.prototype.toString]. *)
Definition render (e : exn) : string :=
  match error_name e, error_message e with
  | n, EmptyString => n
  | EmptyString, m => m
  | n, m => n ++ ": " ++ m
  end.

Inductive level : Type := LOG | WARN | ERROR.

Inductive node : Type :=
| File (text : string)
| Directory (entries : list string).

Definition FileSystem : Type := string -> option node.

(** [pulumi.Config]: [get] gives the value of a key and [getNumber]
    the number that value denotes; [require] and [requireNumber] throw
    when there is none. *)
Record Config : Type :=
  { get : string -> option string;
    getNumber : string -> option N }.

Record Env : Type :=
  { fs : FileSystem;
    config : Config;
    __dirname : string }.

(** What lies outside the program and changes: the database server
    behind the [pg] client, and the clock.  Each operation of the
    client either completes or throws. *)
Class Runtime (R : Type) : Type :=
  { client_connect : R -> option exn * R;
    client_query : string -> R -> option exn * R;
    client_end : R -> option exn * R;
    Date_now : R -> N * R;
    toISOString : N -> string }.

(** ** Records of the provider *)

Module SchemaVersionArgs.
Record t : Type := make
  { version : string;
    name : string;
    upSql : string;
    downSql : option string;
    database : string }.
End SchemaVersionArgs.

Module SchemaVersionState.
Record t : Type := make
  { version : string;
    name : string;
    upSqlChecksum : string;
    downSqlChecksum : option string;
    appliedAt : string }.
End SchemaVersionState.

Record CreateResult : Type :=
  { id : string; outs : SchemaVersionState.t }.

Record DiffResult : Type := { changes : bool }.

Record UpdateResult : Type := { update_outs : option SchemaVersionState.t }.

Record ReadResult : Type :=
  { read_id : string; props : SchemaVersionState.t }.

(** A [SchemaVersion] resource as its constructor registers it: its
    name, its arguments (to which the constructor adds empty
    [upSqlChecksum], [downSqlChecksum] and [appliedAt]) and the
    resources of its [dependsOn] option. *)
#[warnings="-register-all"]
Inductive SchemaVersion : Type :=
| new_SchemaVersion (resourceName : string) (args : SchemaVersionArgs.t)
    (dependsOn : list SchemaVersion).

Definition resourceName (r : SchemaVersion) : string :=
  match r with new_SchemaVersion n _ _ => n end.
Definition args (r : SchemaVersion) : SchemaVersionArgs.t :=
  match r with new_SchemaVersion _ a _ => a end.
Definition dependsOn (r : SchemaVersion) : list SchemaVersion :=
  match r with new_SchemaVersion _ _ d => d end.

Record FileMigrationManager : Type :=
  { migrationsPath : string;
    migrationFiles : list MigrationFile.t }.

(** [inputs.downSql ? sha256(inputs.downSql) : undefined]: an absent
    and an empty text both give [undefined]. *)
Definition optional_checksum (sql : option string) : option string :=
  match sql with
  | Some text => if truthy text then Some (sha256 text) else None
  | None => None
  end.

(** [migration?.downPath] *)
Definition optional_downPath (migration : option MigrationFile.t) : option string :=
  match migration with
  | Some m => MigrationFile.downPath m
  | None => None
  end.

(** [!==] on a value that is a string or [undefined]. *)
Definition option_string_eqb (a b : option string) : bool :=
  match a, b with
  | Some x, Some y => (x =? y)
  | None, None => true
  | _, _ => false
  end.

(** ** The program *)

Section Program.
Context {R : Type} {RT : Runtime R}.
Variable env : Env.

(** The state an operation runs in: the outside, the statements
    handed to [client.query] so far, and the lines of the console. *)
Record World : Type :=
  { outside : R;
    queries : list string;
    console : list (level * string) }.

(** An operation ends with a value or with a thrown error, in a new
    state. *)
Definition M (A : Type) : Type := World -> (exn + A) * World.

Definition ret {A} (a : A) : M A := fun w => (inr a, w).
Definition throw {A} (e : exn) : M A := fun w => (inl e, w).
Definition bind {A B} (m : M A) (k : A -> M B) : M B :=
  fun w => match m w with
           | (inr a, w') => k a w'
           | (inl e, w') => (inl e, w')
           end.
(** [m.catch(handler)] *)
Definition catch {A} (m : M A) (handler : exn -> M A) : M A :=
  fun w => match m w with
           | (inl e, w') => handler e w'
           | (inr a, w') => (inr a, w')
           end.
(** [try { m } finally { cleanup }]: an error of [cleanup] replaces
    the outcome of [m]. *)
Definition finally {A} (m : M A) (cleanup : M unit) : M A :=
  fun w => match m w with
           | (r, w1) => match cleanup w1 with
                        | (inl e, w2) => (inl e, w2)
                        | (inr _, w2) => (r, w2)
                        end
           end.

Notation "x <- m ;; k" := (bind m (fun x => k))
  (at level 61, m at next level, right associativity).
Notation "m ;; k" := (bind m (fun _ => k))
  (at level 61, right associativity).

Definition console_write (l : level) (line : string) : M unit :=
  fun w => (inr tt, {| outside := outside w; queries := queries w;
                       console := (console w ++ [(l, line)])%list |}).

Definition lift_outside (op : R -> option exn * R) : M unit :=
  fun w => let (r, o) := op (outside w) in
           let w' := {| outside := o; queries := queries w; console := console w |} in
           match r with Some e => (inl e, w') | None => (inr tt, w') end.

Definition connect : M unit := lift_outside client_connect.
Definition end_ : M unit := lift_outside client_end.

(** [client.query(sql)]: the statement is handed to the server. *)
Definition query (sql : string) : M unit :=
  fun w => lift_outside (client_query sql)
             {| outside := outside w; queries := (queries w ++ [sql])%list;
                console := console w |}.

Definition now : M N :=
  fun w => let (t, o) := Date_now (outside w) in
           (inr t, {| outside := o; queries := queries w; console := console w |}).

(** The two errors of the configuration, for a key of the
    [postgresql] namespace. *)
Definition ConfigMissingError (key : string) : exn :=
  new_Error ("Missing required configuration variable 'postgresql:" ++ key ++ "'"
             ++ String "010" (String "009" "please set a value using the command `pulumi config set postgresql:")
             ++ key ++ " <value>`").

Definition ConfigTypeError (key value : string) : exn :=
  new_Error ("Configuration 'postgresql:" ++ key ++ "' value '" ++ value
             ++ "' is not a valid number").

Definition require (key : string) : M string :=
  match get (config env) key with
  | Some v => ret v
  | None => throw (ConfigMissingError key)
  end.

Definition requireNumber (key : string) : M N :=
  match getNumber (config env) key with
  | Some v => ret v
  | None =>
      match get (config env) key with
      | None => throw (ConfigMissingError key)
      | Some v => throw (ConfigTypeError key v)
      end
  end.

Definition existsSync (p : string) : bool :=
  match fs env p with Some _ => true | None => false end.

Definition readFileSync (p : string) : M string :=
  match fs env p with
  | Some (File text) => ret text
  | Some (Directory _) =>
      throw (new_Error "EISDIR: illegal operation on a directory, read")
  | None =>
      throw (new_Error ("ENOENT: no such file or directory, open '" ++ p ++ "'"))
  end.

Definition readdirSync (p : string) : M (list string) :=
  match fs env p with
  | Some (Directory entries) => ret entries
  | Some (File _) =>
      throw (new_Error ("ENOTDIR: not a directory, scandir '" ++ p ++ "'"))
  | None =>
      throw (new_Error ("ENOENT: no such file or directory, scandir '" ++ p ++ "'"))
  end.

(** [withPgClient]: the options of the client are read from the
    configuration, then the callback runs between [connect] and
    [end], [end] being called on every way out of the [try]. *)
Definition withPgClient {T} (callback : M T) : M T :=
  require "host" ;;
  requireNumber "port" ;;
  require "database" ;;
  require "username" ;;
  require "password" ;;
  finally (connect ;; callback) end_.

(** *** [FileMigrationManager] *)

Definition loadMigrationFiles (migrationsPath : string) : M (list MigrationFile.t) :=
  if negb (existsSync migrationsPath)
  then throw (new_Error ("Migrations directory not found: " ++ migrationsPath))
  else
    entries <- readdirSync migrationsPath ;;
    let migrationFiles := catalog migrationsPath entries in
    (if (List.length migrationFiles =? 0)%nat
     then console_write WARN ("No migration files found in " ++ migrationsPath)
     else console_write LOG ("Found " ++ decimal (N.of_nat (List.length migrationFiles))
                               ++ " migrations to process")) ;;
    ret migrationFiles.

Definition new_FileMigrationManager (migrationsPath : string) : M FileMigrationManager :=
  files <- loadMigrationFiles migrationsPath ;;
  ret {| migrationsPath := migrationsPath; migrationFiles := files |}.

Definition getMigrationFiles (this : FileMigrationManager) : list MigrationFile.t :=
  migrationFiles this.

Definition readSqlFile (filePath : string) : M string :=
  if negb (existsSync filePath)
  then throw (new_Error ("SQL file not found: " ++ filePath))
  else readFileSync filePath.

(** The loop of [createMigrationResources], with its two variables
    [migrations] and [previousMigration]. *)
Fixpoint createMigrationResources_loop (files : list MigrationFile.t)
    (migrations : list SchemaVersion) (previousMigration : option SchemaVersion)
    : M (list SchemaVersion) :=
  match files with
  | [] => ret migrations
  | migrationFile :: rest =>
      upSql <- readSqlFile (MigrationFile.upPath migrationFile) ;;
      downSql <- match MigrationFile.downPath migrationFile with
                 | Some p => if truthy p
                             then (text <- readSqlFile p ;; ret (Some text))
                             else ret None
                 | None => ret None
                 end ;;
      let resourceName := path_basename (MigrationFile.upPath migrationFile) ".sql" in
      database <- require "database" ;;
      let migration :=
        new_SchemaVersion resourceName
          {| SchemaVersionArgs.version := MigrationFile.version migrationFile;
             SchemaVersionArgs.name := MigrationFile.name migrationFile;
             SchemaVersionArgs.upSql := upSql;
             SchemaVersionArgs.downSql := downSql;
             SchemaVersionArgs.database := database |}
          match previousMigration with Some p => [p] | None => [] end in
      createMigrationResources_loop rest (migrations ++ [migration])%list (Some migration)
  end.

Definition createMigrationResources (this : FileMigrationManager) : M (list SchemaVersion) :=
  createMigrationResources_loop (migrationFiles this) [] None.

(** *** The provider *)

Definition create (inputs : SchemaVersionArgs.t) : M CreateResult :=
  catch
    (withPgClient
       (query (SchemaVersionArgs.upSql inputs) ;;
        let upChecksum := sha256 (SchemaVersionArgs.upSql inputs) in
        let downChecksum := optional_checksum (SchemaVersionArgs.downSql inputs) in
        console_write LOG ("Applied migration: " ++ SchemaVersionArgs.version inputs
                             ++ " - " ++ SchemaVersionArgs.name inputs) ;;
        stamp <- now ;;
        date <- now ;;
        ret {| id := SchemaVersionArgs.database inputs ++ "-"
                     ++ SchemaVersionArgs.version inputs ++ "-" ++ decimal stamp;
               outs := {| SchemaVersionState.version := SchemaVersionArgs.version inputs;
                          SchemaVersionState.name := SchemaVersionArgs.name inputs;
                          SchemaVersionState.upSqlChecksum := upChecksum;
                          SchemaVersionState.downSqlChecksum := downChecksum;
                          SchemaVersionState.appliedAt := toISOString date |} |}))
    (fun error =>
       (* the object printed after the label is left out of the line *)
       console_write ERROR "Migration error details:" ;;
       throw (new_Error ("Failed to apply migration " ++ SchemaVersionArgs.version inputs
                           ++ ": " ++ render error))).

Definition diff (id : string) (olds : SchemaVersionState.t)
    (news : SchemaVersionArgs.t) : exn + DiffResult :=
  let currentUpChecksum := sha256 (SchemaVersionArgs.upSql news) in
  let currentDownChecksum := optional_checksum (SchemaVersionArgs.downSql news) in
  if negb (SchemaVersionState.upSqlChecksum olds =? currentUpChecksum)
  then inl (new_Error ("Migration " ++ SchemaVersionArgs.version news
             ++ " UP SQL checksum mismatch. SchemaVersion resources are immutable once applied."))
  else if negb (option_string_eqb (SchemaVersionState.downSqlChecksum olds) currentDownChecksum)
  then inl (new_Error ("Migration " ++ SchemaVersionArgs.version news
             ++ " DOWN SQL checksum mismatch. SchemaVersion resources are immutable once applied."))
  else inr {| changes := false |}.

Definition update (id : string) (olds : SchemaVersionState.t)
    (news : SchemaVersionArgs.t) : exn + UpdateResult :=
  inl (new_Error ("Migration " ++ SchemaVersionArgs.version news
         ++ " cannot be updated. SchemaVersion resources are immutable.")).

Definition skip_rollback (props : SchemaVersionState.t) : M unit :=
  console_write WARN ("No down migration found for " ++ SchemaVersionState.version props
                        ++ ", skipping rollback").

Definition rollback (props : SchemaVersionState.t) (downPath : string) : M unit :=
  catch
    (withPgClient
       (downSql <- readFileSync downPath ;;
        query downSql ;;
        console_write LOG ("Rolled back migration: " ++ SchemaVersionState.version props
                             ++ " - " ++ SchemaVersionState.name props)))
    (fun error =>
       (* the error printed after the label is left out of the line *)
       console_write ERROR ("Failed to rollback migration " ++ SchemaVersionState.version props
                              ++ ":") ;;
       throw error).

Definition delete (id : string) (props : SchemaVersionState.t) : M unit :=
  migrationManager <- new_FileMigrationManager (path_join (__dirname env) "sql") ;;
  let migrationFiles := getMigrationFiles migrationManager in
  let migration :=
    find (fun m => MigrationFile.version m =? SchemaVersionState.version props)
         migrationFiles in
  match optional_downPath migration with
  | Some downPath =>
      if negb (truthy downPath) || negb (existsSync downPath)
      then skip_rollback props
      else rollback props downPath
  | None => skip_rollback props
  end.

Definition read (id : string) (props : SchemaVersionState.t) : ReadResult :=
  {| read_id := id; props := props |}.

(** *** The body of the module

    It builds the manager on the [sql] directory next to the program
    and the resources, and exports [currentMigrationVersion] and
    [migrationCount]. *)

Definition main : M (option string * nat) :=
  migrations <- new_FileMigrationManager (path_join (__dirname env) "sql") ;;
  migrationResources <- createMigrationResources migrations ;;
  let lastMigration := last (map Some (getMigrationFiles migrations)) None in
  let currentMigrationVersion := option_map MigrationFile.version lastMigration in
  let migrationCount := List.length migrationResources in
  ret (currentMigrationVersion, migrationCount).

End Program.

Arguments World R : clear implicits.
Arguments M R A : clear implicits.

(** ** Predicates of the statements *)

Definition direction_suffix (d : direction) : string :=
  match d with up => ".up.sql" | down => ".down.sql" end.

Fixpoint string_forall (p : ascii -> bool) (s : string) : bool :=
  match s with
  | EmptyString => true
  | String c r => p c && string_forall p r
  end.

(** Where an entry of the map comes from: its key is made of its
    version (decimal digits) and of a description, its name is that
    description with hyphens, and each of its paths, when set, is that
    of a file of [files] whose name gives this version, this
    description and the direction. *)
Definition entry_from (migrationsPath : string) (files : list string)
    (entry : string * MigrationFile.t) : Prop :=
  exists description,
    fst entry = "V" ++ MigrationFile.version (snd entry) ++ "__" ++ description
    /\ string_forall is_digit (MigrationFile.version (snd entry)) = true
    /\ MigrationFile.name (snd entry) = replace_underscores description
    /\ (MigrationFile.upPath (snd entry) = ""
        \/ exists f, In f files
             /\ match_migration f = Some (MigrationFile.version (snd entry), description, up)
             /\ MigrationFile.upPath (snd entry) = path_join migrationsPath f)
    /\ (MigrationFile.downPath (snd entry) = None
        \/ exists f, In f files
             /\ match_migration f = Some (MigrationFile.version (snd entry), description, down)
             /\ MigrationFile.downPath (snd entry) = Some (path_join migrationsPath f)).

(** The invariant of the loop: the keys of the map are distinct, and
    every entry comes from the files read so far. *)
Definition map_invariant (dir : string) (files : list string) (m : MigrationMap) : Prop :=
  NoDup (map fst m) /\ forall e, In e m -> entry_from dir files e.

(** The line [loadMigrationFiles] writes to the console. *)
Definition load_line (migrationsPath : string) (migrationFiles : list MigrationFile.t)
    : level * string :=
  if (List.length migrationFiles =? 0)%nat
  then (WARN, "No migration files found in " ++ migrationsPath)
  else (LOG, "Found " ++ decimal (N.of_nat (List.length migrationFiles))
               ++ " migrations to process").

(** [rs] are resources made from [files], one for each in order, each
    depending on the one before it and the first on [previous]. *)
Fixpoint chained (previous : option SchemaVersion) (files : list MigrationFile.t)
    (rs : list SchemaVersion) : Prop :=
  match files, rs with
  | [], [] => True
  | f :: files', r :: rs' =>
      resourceName r = path_basename (MigrationFile.upPath f) ".sql"
      /\ SchemaVersionArgs.version (args r) = MigrationFile.version f
      /\ SchemaVersionArgs.name (args r) = MigrationFile.name f
      /\ dependsOn r = match previous with Some p => [p] | None => [] end
      /\ chained (Some r) files' rs'
  | _, _ => False
  end.

(** Every script of [files] can be read. *)
Definition readable (env : Env) (files : list MigrationFile.t) : Prop :=
  forall f, In f files ->
    (exists text, fs env (MigrationFile.upPath f) = Some (File text))
    /\ (forall p, MigrationFile.downPath f = Some p -> truthy p = true ->
        exists text, fs env p = Some (File text)).

(** The two errors [diff] throws on a checksum that differs. *)
Definition immutability_violation (version : string) (e : exn) : Prop :=
  e = new_Error ("Migration " ++ version
        ++ " UP SQL checksum mismatch. SchemaVersion resources are immutable once applied.")
  \/ e = new_Error ("Migration " ++ version
        ++ " DOWN SQL checksum mismatch. SchemaVersion resources are immutable once applied.").

(** The five keys [withPgClient] requires are set. *)
Definition configured (env : Env) : Prop :=
  get (config env) "host" <> None
  /\ getNumber (config env) "port" <> None
  /\ get (config env) "database" <> None
  /\ get (config env) "username" <> None
  /\ get (config env) "password" <> None.

(** The state [w] with one more line on the console. *)
Definition write_line {R : Type} (w : World R) (line : level * string) : World R :=
  {| outside := outside w; queries := queries w;
     console := (console w ++ [line])%list |}.

(** The entry [delete] looks at: the first of the catalog with the
    version of the record. *)
Definition find_migration (props : SchemaVersionState.t)
    (migrationFiles : list MigrationFile.t) : option MigrationFile.t :=
  find (fun m => MigrationFile.version m =? SchemaVersionState.version props) migrationFiles.

(** ** A scripted outside, to run the operations on examples

    The server rejects the statements of a list and accepts the others;
    connecting and closing succeed; the clock advances by one at each
    reading. *)

Record Scripted : Type := { rejected : list string; clock : N }.

#[export] Instance scripted_runtime : Runtime Scripted :=
  {| client_connect := fun o => (None, o);
     client_query := fun sql o =>
       if existsb (String.eqb sql) (rejected o)
       then (Some {| error_name := "error"; error_message := "syntax error" |}, o)
       else (None, o);
     client_end := fun o => (None, o);
     Date_now := fun o => (clock o, {| rejected := rejected o; clock := (clock o + 1)%N |});
     toISOString := fun t => decimal t |}.

Definition example_config : Config :=
  {| get := fun key => Some "value"; getNumber := fun key => Some 5432%N |}.

Definition example_fs : FileSystem := fun p =>
  if p =? "/app/sql" then
    Some (Directory ["V002__y.up.sql"; "V001__init.down.sql"; "V003__x.up.sql";
                     "V001__init.up.sql"; "V002__y.down.sql"])
  else if p =? "/app/sql/V001__init.up.sql" then Some (File "CREATE TABLE a (id int);")
  else if p =? "/app/sql/V001__init.down.sql" then Some (File "DROP TABLE a;")
  else if p =? "/app/sql/V002__y.up.sql" then Some (File "CREATE TABLE b (id int);")
  else if p =? "/app/sql/V003__x.up.sql" then Some (File "CREATE TABLE c (id int);")
  else None.

Definition example_env : Env :=
  {| fs := example_fs; config := example_config; __dirname := "/app" |}.

Definition example_world (rejected : list string) : World Scripted :=
  {| outside := {| rejected := rejected; clock := 1700000000000 |};
     queries := []; console := [] |}.

Definition example_inputs : SchemaVersionArgs.t :=
  {| SchemaVersionArgs.version := "001"; SchemaVersionArgs.name := "init";
     SchemaVersionArgs.upSql := "CREATE TABLE a (id int);";
     SchemaVersionArgs.downSql := Some "DROP TABLE a;";
     SchemaVersionArgs.database := "app" |}.

Definition example_manager : FileMigrationManager :=
  {| migrationsPath := "/app/sql";
     migrationFiles :=
       catalog "/app/sql" ["V003__x.up.sql"; "V001__init.up.sql"; "V001__init.down.sql"] |}.

Definition example_resources : list SchemaVersion :=
  let first :=
    new_SchemaVersion "V001__init.up"
      (SchemaVersionArgs.make "001" "init" "CREATE TABLE a (id int);"
         (Some "DROP TABLE a;") "value") [] in
  [ first;
    new_SchemaVersion "V003__x.up"
      (SchemaVersionArgs.make "003" "x" "CREATE TABLE c (id int);" None "value") [first] ].

Definition example_state (version name : string) (downSqlChecksum : option string)
    : SchemaVersionState.t :=
  {| SchemaVersionState.version := version;
     SchemaVersionState.name := name;
     SchemaVersionState.upSqlChecksum := "";
     SchemaVersionState.downSqlChecksum := downSqlChecksum;
     SchemaVersionState.appliedAt := "1700000000001" |}.

(** A directory with two migrations of the same version. *)
Definition duplicate_fs : FileSystem := fun p =>
  if p =? "/app/sql" then
    Some (Directory ["V001__a.up.sql"; "V001__b.down.sql"; "V001__b.up.sql"])
  else if p =? "/app/sql/V001__a.up.sql" then Some (File "CREATE TABLE a (id int);")
  else if p =? "/app/sql/V001__b.up.sql" then Some (File "CREATE TABLE b (id int);")
  else if p =? "/app/sql/V001__b.down.sql" then Some (File "DROP TABLE b;")
  else None.

Definition duplicate_env : Env :=
  {| fs := duplicate_fs; config := example_config; __dirname := "/app" |}.

(** ** Further predicates and examples *)

(** One of the five keys [withPgClient] requires has no value. *)
Definition missing_key (env : Env) : Prop :=
  get (config env) "host" = None
  \/ getNumber (config env) "port" = None
  \/ get (config env) "database" = None
  \/ get (config env) "username" = None
  \/ get (config env) "password" = None.

(** The resources a resource waits for, nearest first: those of its
    [dependsOn] and, in turn, the ones they wait for. *)
Fixpoint ancestors (r : SchemaVersion) : list SchemaVersion :=
  match r with
  | new_SchemaVersion _ _ deps =>
      (fix through (l : list SchemaVersion) : list SchemaVersion :=
         match l with
         | [] => []
         | p :: rest => (p :: ancestors p) ++ through rest
         end)%list deps
  end.

(** A name of a directory listing is a single segment. *)
Definition single_segment (file : string) : Prop :=
  string_exists is_slash file = false.

(** An outside whose client fails to connect or to close as told. *)
Record Faulty : Type :=
  { connect_error : option exn; end_error : option exn }.

#[export] Instance faulty_runtime : Runtime Faulty :=
  {| client_connect := fun o => (connect_error o, o);
     client_query := fun sql o => (None, o);
     client_end := fun o => (end_error o, o);
     Date_now := fun o => (1700000000000%N, o);
     toISOString := fun t => decimal t |}.

Definition faulty_world (connect_error end_error : option exn) : World Faulty :=
  {| outside := {| connect_error := connect_error; end_error := end_error |};
     queries := []; console := [] |}.

Definition connection_refused : exn :=
  {| error_name := "Error"; error_message := "connect ECONNREFUSED" |}.

(** A configuration without password. *)
Definition partial_env : Env :=
  {| fs := example_fs;
     config := {| get := fun key => if key =? "password" then None else Some "value";
                  getNumber := fun key => Some 5432%N |};
     __dirname := "/app" |}.

(** A program directory without [sql]. *)
Definition bare_env : Env :=
  {| fs := fun p => None; config := example_config; __dirname := "/app" |}.

(** The entry [m] has [p] as its path of the direction [d]. *)
Definition has_path (d : direction) (p : string) (m : MigrationFile.t) : Prop :=
  match d with
  | up => MigrationFile.upPath m = p
  | down => MigrationFile.downPath m = Some p
  end.

(** The name matches the pattern of the migration files. *)
Definition matches (file : string) : bool :=
  match match_migration file with Some _ => true | None => false end.

Definition is_underscore (c : ascii) : bool := (c =? "_")%char.

(** The resource [r] carries the scripts of the entry [f]: the text of
    its up file, the text of its down file when it has one, and the
    configured database. *)
Definition carries (env : Env) (f : MigrationFile.t) (r : SchemaVersion) : Prop :=
  fs env (MigrationFile.upPath f) = Some (File (SchemaVersionArgs.upSql (args r)))
  /\ match MigrationFile.downPath f with
     | Some p =>
         if truthy p
         then exists text, fs env p = Some (File text)
                           /\ SchemaVersionArgs.downSql (args r) = Some text
         else SchemaVersionArgs.downSql (args r) = None
     | None => SchemaVersionArgs.downSql (args r) = None
     end
  /\ get (config env) "database" = Some (SchemaVersionArgs.database (args r)).

(** The last element of an array, [slice(-1)[0]]. *)
Definition last_entry (files : list MigrationFile.t) : option MigrationFile.t :=
  last (map Some files) None.

(** A directory with two migrations of one version, each with its down
    script. *)
Definition shared_version_env : Env :=
  {| fs := fun p =>
       if p =? "/app/sql" then
         Some (Directory ["V001__a.down.sql"; "V001__a.up.sql";
                          "V001__b.down.sql"; "V001__b.up.sql"])
       else if p =? "/app/sql/V001__a.up.sql" then Some (File "CREATE TABLE a (id int);")
       else if p =? "/app/sql/V001__a.down.sql" then Some (File "DROP TABLE a;")
       else if p =? "/app/sql/V001__b.up.sql" then Some (File "CREATE TABLE b (id int);")
       else if p =? "/app/sql/V001__b.down.sql" then Some (File "DROP TABLE b;")
       else None;
     config := example_config; __dirname := "/app" |}.

(** A directory in which the down path of a migration is a directory. *)
Definition nested_env : Env :=
  {| fs := fun p =>
       if p =? "/app/sql" then Some (Directory ["V001__init.up.sql"; "V001__init.down.sql"])
       else if p =? "/app/sql/V001__init.up.sql" then Some (File "CREATE TABLE a (id int);")
       else if p =? "/app/sql/V001__init.down.sql" then Some (Directory [])
       else None;
     config := example_config; __dirname := "/app" |}.
Example sha256_empty :
  sha256 "" = "e3b0c44298fc1c149afbf4c8996fb92427ae41e4649b934ca495991b7852b855".
Proof. vm_compute. reflexivity. Qed.

Example sha256_abc :
  sha256 "abc" = "ba7816bf8f01cfea414140de5dae2223b00361a396177a9cb410ff61f20015ad".
Proof. vm_compute. reflexivity. Qed.

Example sha256_two_blocks :
  sha256 "CREATE TABLE t (id int); -- a longer script that spans more than one block, 64 bytes and over."
  = "99a832d9434ec27df03f799fa27f959e8474d48f1da5f1945908f5458a7cb510".
Proof. vm_compute. reflexivity. Qed.

Example match_up : match_migration "V001__create_users.up.sql"
                   = Some ("001", "create_users", up).
Proof. reflexivity. Qed.
Example match_down : match_migration "V12__a.b.up.sql.down.sql"
                     = Some ("12", "a.b.up.sql", down).
Proof. reflexivity. Qed.
Example match_underscore : match_migration "V1___.up.sql" = Some ("1", "_", up).
Proof. reflexivity. Qed.
Example match_empty_description : match_migration "V1__.up.sql" = None.
Proof. reflexivity. Qed.
Example match_lower_case_v : match_migration "v1__x.up.sql" = None.
Proof. reflexivity. Qed.
Example match_no_digits : match_migration "V__x.up.sql" = None.
Proof. reflexivity. Qed.
Example match_one_underscore : match_migration "V1_x.up.sql" = None.
Proof. reflexivity. Qed.
Example match_trailing_text : match_migration "V1__x.up.sql.bak" = None.
Proof. reflexivity. Qed.

Example catalog_of_spec :
  catalog "sql" ["V003__x.up.sql"; "V002__y.down.sql"; "V001__init.up.sql";
                 "V002__y.up.sql"; "V001__init.down.sql"; "README.md"]
  = [ MigrationFile.make "001" "init" "sql/V001__init.up.sql" (Some "sql/V001__init.down.sql");
      MigrationFile.make "002" "y" "sql/V002__y.up.sql" (Some "sql/V002__y.down.sql");
      MigrationFile.make "003" "x" "sql/V003__x.up.sql" None ].
Proof. reflexivity. Qed.

Example catalog_numeric_order :
  map MigrationFile.version
      (catalog "sql" ["V10__b.up.sql"; "V2__a.up.sql"; "V1__c_d.up.sql"])
  = ["1"; "2"; "10"].
Proof. reflexivity. Qed.

(** A description with the line separator U+2028 is not matched. *)
Example match_line_separator :
  match_migration ("V1__a" ++ String "226" (String "128" (String "168" "b.up.sql"))) = None.
Proof. reflexivity. Qed.
Example match_line_feed :
  match_migration ("V1__a" ++ String "010" "b.up.sql") = None.
Proof. reflexivity. Qed.
(** The bytes 226 128 167 are U+2027, which is no line terminator. *)
Example match_other_punctuation :
  match_migration ("V1__a" ++ String "226" (String "128" (String "167" "b.up.sql")))
  = Some ("1", "a" ++ String "226" (String "128" (String "167" "b")), up).
Proof. reflexivity. Qed.

(** U+E000 (bytes 238 128 128) is one code unit, above the surrogates
    of U+10000 (bytes 240 144 128 128): it sorts after it, against the
    order of the bytes. *)
Example compare_code_units_private_use :
  compare_code_units (String "238" (String "128" (String "128" "")))
                     (String "240" (String "144" (String "128" (String "128" ""))))
  = Gt
  /\ String.compare (String "238" (String "128" (String "128" "")))
                    (String "240" (String "144" (String "128" (String "128" ""))))
     = Lt.
Proof. split; reflexivity. Qed.
Example compare_code_units_ascii : compare_code_units "V10__b.up.sql" "V2__a.up.sql" = Lt.
Proof. reflexivity. Qed.

Example decimal_zero : decimal 0 = "0".
Proof. reflexivity. Qed.

Example basename_of_up_path : path_basename "/app/sql/V001__init.up.sql" ".sql" = "V001__init.up".
Proof. reflexivity. Qed.

Example main_counts_resources :
  fst (main duplicate_env (example_world [])) = inr (Some "001", 2).
Proof. vm_compute. reflexivity. Qed.

(** A down file that is listed and cannot be read stops the program. *)
Example main_script_not_found :
  fst (main example_env (example_world []))
  = inl (new_Error "SQL file not found: /app/sql/V002__y.down.sql").
Proof. vm_compute. reflexivity. Qed.

(** * The provider: [update] and [diff] *)

Lemma option_string_eqb_eq (a b : option string) :
  option_string_eqb a b = true <-> a = b.
Proof.
  destruct a as [x|], b as [y|]; simpl; try (split; congruence).
  rewrite String.eqb_eq. split; congruence.
Qed.

(** The three outcomes of [diff], by the two comparisons it makes. *)
Lemma diff_cases (id : string) (olds : SchemaVersionState.t) (news : SchemaVersionArgs.t) :
  (SchemaVersionState.upSqlChecksum olds = sha256 (SchemaVersionArgs.upSql news)
   /\ SchemaVersionState.downSqlChecksum olds
      = optional_checksum (SchemaVersionArgs.downSql news)
   /\ diff id olds news = inr {| changes := false |})
  \/ (SchemaVersionState.upSqlChecksum olds <> sha256 (SchemaVersionArgs.upSql news)
      /\ diff id olds news
         = inl (new_Error ("Migration " ++ SchemaVersionArgs.version news
             ++ " UP SQL checksum mismatch. SchemaVersion resources are immutable once applied.")))
  \/ (SchemaVersionState.downSqlChecksum olds
        <> optional_checksum (SchemaVersionArgs.downSql news)
      /\ diff id olds news
         = inl (new_Error ("Migration " ++ SchemaVersionArgs.version news
             ++ " DOWN SQL checksum mismatch. SchemaVersion resources are immutable once applied."))).
Proof.
  unfold diff.
  destruct (String.eqb_spec (SchemaVersionState.upSqlChecksum olds)
              (sha256 (SchemaVersionArgs.upSql news))) as [Hup|Hup]; simpl.
  - destruct (option_string_eqb (SchemaVersionState.downSqlChecksum olds)
                (optional_checksum (SchemaVersionArgs.downSql news))) eqn:Hdown; simpl.
    + apply option_string_eqb_eq in Hdown. left. auto.
    + right. right. split; [|reflexivity].
      intro H. apply option_string_eqb_eq in H. congruence.
  - right. left. auto.
Qed.

(** What a successful [create] returns. *)
Lemma create_outs {R : Type} {RT : Runtime R} (env : Env)
    (inputs : SchemaVersionArgs.t) (w w' : World R) (res : CreateResult) :
  create env inputs w = (inr res, w') ->
  SchemaVersionState.version (outs res) = SchemaVersionArgs.version inputs
  /\ SchemaVersionState.name (outs res) = SchemaVersionArgs.name inputs
  /\ SchemaVersionState.upSqlChecksum (outs res) = sha256 (SchemaVersionArgs.upSql inputs)
  /\ SchemaVersionState.downSqlChecksum (outs res)
     = optional_checksum (SchemaVersionArgs.downSql inputs).
Proof.
  unfold create, catch, withPgClient, finally, bind, ret, throw, console_write, now.
  repeat match goal with
         | |- context [match ?m ?w0 with _ => _ end] =>
             lazymatch m with
             | require _ _ => destruct (m w0) as [[?|?] ?] eqn:?
             | requireNumber _ _ => destruct (m w0) as [[?|?] ?] eqn:?
             | connect => destruct (m w0) as [[?|?] ?] eqn:?
             | end_ => destruct (m w0) as [[?|?] ?] eqn:?
             | query _ => destruct (m w0) as [[?|?] ?] eqn:?
             end
         | |- context [let (_, _) := Date_now ?o in _] => destruct (Date_now o)
         end;
    intro H; inversion H; subst; simpl; auto.
Qed.

(** C1. [diff] answers "no changes" exactly when the two fingerprints it
    recomputes from the proposed texts (that of the up script, and that
    of the down script, absent when the text is absent or empty) equal
    the stored [upSqlChecksum] and [downSqlChecksum]; when either
    differs it throws an immutability error and never reports a change;
    on the record that [create] returned, with the same two texts, it
    answers "no changes". *)
Theorem diff_no_changes_iff_checksums_match
    (id : string) (olds : SchemaVersionState.t) (news : SchemaVersionArgs.t) :
  (diff id olds news = inr {| changes := false |}
   <-> SchemaVersionState.upSqlChecksum olds = sha256 (SchemaVersionArgs.upSql news)
       /\ SchemaVersionState.downSqlChecksum olds
          = optional_checksum (SchemaVersionArgs.downSql news))
  /\ (diff id olds news = inr {| changes := false |}
      \/ exists e, diff id olds news = inl e
                   /\ immutability_violation (SchemaVersionArgs.version news) e)
  /\ (forall (R : Type) (RT : Runtime R) (env : Env) (inputs : SchemaVersionArgs.t)
             (w w' : World R) (res : CreateResult),
        create env inputs w = (inr res, w') ->
        olds = outs res ->
        SchemaVersionArgs.upSql news = SchemaVersionArgs.upSql inputs ->
        SchemaVersionArgs.downSql news = SchemaVersionArgs.downSql inputs ->
        diff id olds news = inr {| changes := false |}).
Proof.
  assert (Hiff : diff id olds news = inr {| changes := false |}
   <-> SchemaVersionState.upSqlChecksum olds = sha256 (SchemaVersionArgs.upSql news)
       /\ SchemaVersionState.downSqlChecksum olds
          = optional_checksum (SchemaVersionArgs.downSql news)).
  { destruct (diff_cases id olds news) as [(Hu & Hd & E)|[(Hu & E)|(Hd & E)]];
      rewrite E; split; auto; try discriminate; intros [? ?]; contradiction. }
  split; [exact Hiff|]. split.
  - destruct (diff_cases id olds news) as [(_ & _ & E)|[(_ & E)|(_ & E)]]; rewrite E.
    + left. reflexivity.
    + right. eexists. split; [reflexivity|]. left. reflexivity.
    + right. eexists. split; [reflexivity|]. right. reflexivity.
  - intros R RT env inputs w w' res Hc Holds Hup Hdown.
    apply create_outs in Hc. destruct Hc as (_ & _ & Hu & Hd).
    apply Hiff. subst olds. rewrite Hu, Hd, Hup, Hdown. auto.
Qed.

Lemma diff_no_changes_iff_checksums_match_witness :
  diff "app-001-1700000000000"
       (SchemaVersionState.make "001" "init"
          "168f4af76cbece82a4185c6c57366e07883c6e4155f25ce28559018d99433b81"
          (Some "937ae32e019abfd72940f6b09c76aa98b0a04ffd22f82d38a58c5cc7ba016f48")
          "1700000000001")
       example_inputs
  = inr {| changes := false |}.
Proof.
  refine (proj2 (proj2 (diff_no_changes_iff_checksums_match _ _ _))
            Scripted scripted_runtime example_env example_inputs
            (example_world []) _ _ _ _ eq_refl eq_refl).
  - vm_compute. reflexivity.
  - reflexivity.
Defined.

(** C8. [update] throws for every identifier, stored record and
    proposed input; it has no successful result. *)
Theorem update_always_fails
    (id : string) (olds : SchemaVersionState.t) (news : SchemaVersionArgs.t) :
  update id olds news
  = inl (new_Error ("Migration " ++ SchemaVersionArgs.version news
           ++ " cannot be updated. SchemaVersion resources are immutable."))
  /\ forall r : UpdateResult, update id olds news <> inr r.
Proof.
  split; [reflexivity|]. intros r. unfold update. discriminate.
Qed.

(** C10, as the program has it.  An empty down text counts as no down
    script.  A record without [downSqlChecksum] and a proposed down
    script that is not empty make [diff] throw an immutability error;
    so do a record with a [downSqlChecksum] and a proposal without down
    script (or with an empty one); [diff] never reports a change.  With
    an empty down text proposed for a record without [downSqlChecksum],
    [diff] answers "no changes" when the up checksum matches. *)
Theorem diff_down_presence_is_drift
    (id : string) (olds : SchemaVersionState.t) (news : SchemaVersionArgs.t) :
  (SchemaVersionState.downSqlChecksum olds = None ->
   forall text, SchemaVersionArgs.downSql news = Some text -> text <> "" ->
   exists e, diff id olds news = inl e
             /\ immutability_violation (SchemaVersionArgs.version news) e)
  /\ (forall c, SchemaVersionState.downSqlChecksum olds = Some c ->
      SchemaVersionArgs.downSql news = None \/ SchemaVersionArgs.downSql news = Some "" ->
      exists e, diff id olds news = inl e
                /\ immutability_violation (SchemaVersionArgs.version news) e)
  /\ (forall r, diff id olds news = inr r -> changes r = false)
  /\ (SchemaVersionState.downSqlChecksum olds = None ->
      SchemaVersionArgs.downSql news = Some "" ->
      SchemaVersionState.upSqlChecksum olds = sha256 (SchemaVersionArgs.upSql news) ->
      diff id olds news = inr {| changes := false |}).
Proof.
  assert (Hfail : SchemaVersionState.downSqlChecksum olds
                  <> optional_checksum (SchemaVersionArgs.downSql news) ->
                  exists e, diff id olds news = inl e
                    /\ immutability_violation (SchemaVersionArgs.version news) e).
  { intros Hne.
    destruct (diff_cases id olds news) as [(_ & Hd & _)|[(_ & E)|(_ & E)]].
    - contradiction.
    - eexists. split; [exact E|]. left. reflexivity.
    - eexists. split; [exact E|]. right. reflexivity. }
  repeat split.
  - intros Hnone text Htext Hne. apply Hfail. rewrite Hnone, Htext. simpl.
    destruct text; [contradiction|]. simpl. discriminate.
  - intros c Hsome Hnews. apply Hfail. rewrite Hsome.
    destruct Hnews as [-> | ->]; simpl; discriminate.
  - intros r Hr.
    destruct (diff_cases id olds news) as [(_ & _ & E)|[(_ & E)|(_ & E)]];
      rewrite E in Hr; inversion Hr; reflexivity.
  - intros Hnone Htext Hup.
    destruct (diff_cases id olds news) as [(_ & _ & E)|[(Hu & _)|(Hd & _)]].
    + exact E.
    + contradiction.
    + exfalso. apply Hd. rewrite Hnone, Htext. reflexivity.
Qed.

Lemma diff_down_presence_is_drift_witness :
  exists e,
    diff "app-003-1700000000000"
      (SchemaVersionState.make "003" "x" (sha256 "CREATE TABLE c (id int);") None "1700000000001")
      (SchemaVersionArgs.make "003" "x" "CREATE TABLE c (id int);" (Some "DROP TABLE c;") "app")
    = inl e
    /\ immutability_violation "003" e.
Proof.
  refine (proj1 (diff_down_presence_is_drift "app-003-1700000000000"
            (SchemaVersionState.make "003" "x" (sha256 "CREATE TABLE c (id int);") None
               "1700000000001")
            (SchemaVersionArgs.make "003" "x" "CREATE TABLE c (id int);"
               (Some "DROP TABLE c;") "app"))
            eq_refl "DROP TABLE c;" eq_refl _).
  discriminate.
Defined.

(** C10 as it is written fails: the record was applied without a down
    script, the proposal supplies one (an empty file), and [diff]
    answers "no changes". *)
Lemma diff_accepts_added_empty_down_script :
  let olds := SchemaVersionState.make "003" "x" (sha256 "CREATE TABLE c (id int);")
                None "1700000000001" in
  let news := SchemaVersionArgs.make "003" "x" "CREATE TABLE c (id int);" (Some "") "app" in
  SchemaVersionState.downSqlChecksum olds = None
  /\ SchemaVersionArgs.downSql news = Some ""
  /\ diff "app-003-1700000000000" olds news = inr {| changes := false |}
  /\ ~ (exists e, diff "app-003-1700000000000" olds news = inl e).
Proof.
  simpl. split; [reflexivity|]. split; [reflexivity|].
  assert (E : diff "app-003-1700000000000"
           (SchemaVersionState.make "003" "x" (sha256 "CREATE TABLE c (id int);")
              None "1700000000001")
           (SchemaVersionArgs.make "003" "x" "CREATE TABLE c (id int);" (Some "") "app")
         = inr {| changes := false |}).
  { vm_compute. reflexivity. }
  split; [exact E|]. intros [e He]. rewrite E in He. discriminate.
Qed.

(** * The provider: [create] *)

Section ProviderFacts.
Context {R : Type} {RT : Runtime R}.
Variable env : Env.

Lemma withPgClient_configured (T : Type) (callback : M R T) (w : World R) :
  configured env ->
  withPgClient env callback w = finally (bind connect (fun _ => callback)) end_ w.
Proof.
  intros (Hh & Hp & Hd & Hu & Hw).
  unfold withPgClient, require, requireNumber.
  destruct (get (config env) "host"); [|contradiction].
  destruct (getNumber (config env) "port"); [|contradiction].
  destruct (get (config env) "database"); [|contradiction].
  destruct (get (config env) "username"); [|contradiction].
  destruct (get (config env) "password"); [|contradiction].
  reflexivity.
Qed.

(** Whatever fails inside [create] comes out wrapped with the version. *)
Lemma create_error_is_wrapped (inputs : SchemaVersionArgs.t) (w w' : World R) (e : exn) :
  create env inputs w = (inl e, w') ->
  exists cause,
    e = new_Error ("Failed to apply migration " ++ SchemaVersionArgs.version inputs
                     ++ ": " ++ render cause).
Proof.
  unfold create, catch.
  match goal with |- context [withPgClient env ?cb w] =>
    destruct (withPgClient env cb w) as [[cause|res] w1] end.
  - unfold bind, console_write, throw. simpl. intro H. inversion H. eauto.
  - intro H. discriminate.
Qed.

End ProviderFacts.

(** C6. When the server rejects the up script, [create] ends with an
    [Error] whose message is "Failed to apply migration <version>: "
    followed by the cause (the error of the statement, or that of
    closing the client when closing fails too), and with no result: no
    identifier and no record of checksums is returned.  Every error of
    [create] has that wrapped form. *)
Theorem create_failure_returns_no_record
    {R : Type} {RT : Runtime R} (env : Env) (inputs : SchemaVersionArgs.t) (w : World R) :
  (forall o1 cause o2,
     configured env ->
     client_connect (outside w) = (None, o1) ->
     client_query (SchemaVersionArgs.upSql inputs) o1 = (Some cause, o2) ->
     exists cause' w',
       create env inputs w
       = (inl (new_Error ("Failed to apply migration " ++ SchemaVersionArgs.version inputs
                            ++ ": " ++ render cause')), w')
       /\ (forall o3, client_end o2 = (None, o3) -> cause' = cause)
       /\ (forall res w'', create env inputs w <> (inr res, w'')))
  /\ (forall e w',
        create env inputs w = (inl e, w') ->
        exists cause,
          e = new_Error ("Failed to apply migration " ++ SchemaVersionArgs.version inputs
                           ++ ": " ++ render cause)).
Proof.
  split.
  - intros o1 cause o2 Hcfg Hconn Hq.
    unfold create, catch. rewrite withPgClient_configured by exact Hcfg.
    unfold finally, bind, connect, end_, query, lift_outside. simpl.
    rewrite Hconn. simpl. rewrite Hq. simpl.
    destruct (client_end o2) as [[e3|] o3] eqn:Hend; unfold throw; simpl.
    + exists e3. eexists. split; [reflexivity|]. split.
      * intros o3' H. discriminate.
      * intros res w'' H. discriminate.
    + exists cause. eexists. split; [reflexivity|]. split.
      * reflexivity.
      * intros res w'' H. discriminate.
  - intros e w'. apply create_error_is_wrapped.
Qed.

Lemma example_configured : configured example_env.
Proof. unfold configured. simpl. repeat split; discriminate. Qed.

Lemma create_failure_returns_no_record_witness :
  exists cause' w',
    create example_env example_inputs (example_world ["CREATE TABLE a (id int);"])
    = (inl (new_Error ("Failed to apply migration 001: " ++ render cause')), w')
    /\ (forall o3, client_end {| rejected := ["CREATE TABLE a (id int);"];
                                 clock := 1700000000000 |} = (None, o3) ->
        cause' = {| error_name := "error"; error_message := "syntax error" |})
    /\ (forall res w'',
          create example_env example_inputs (example_world ["CREATE TABLE a (id int);"])
          <> (inr res, w'')).
Proof.
  refine (proj1 (create_failure_returns_no_record example_env example_inputs
                   (example_world ["CREATE TABLE a (id int);"])) _ _ _
            example_configured eq_refl eq_refl).
Defined.

(** * Strings and file names *)

Lemma append_empty_r (s : string) : s ++ "" = s.
Proof. induction s as [|c s IH]; simpl; [reflexivity|]. rewrite IH. reflexivity. Qed.

Lemma append_assoc (a b c : string) : (a ++ b) ++ c = a ++ b ++ c.
Proof. induction a as [|x a IH]; simpl; [reflexivity|]. rewrite IH. reflexivity. Qed.

Lemma append_inj_r (s a b : string) : s ++ a = s ++ b -> a = b.
Proof. induction s as [|c s IH]; simpl; intro H; [exact H|]. inversion H. auto. Qed.

Lemma strip_prefix_some (p s r : string) : strip_prefix p s = Some r -> s = p ++ r.
Proof.
  revert s. induction p as [|a p IH]; intros s; simpl.
  - intro H. inversion H. reflexivity.
  - destruct s as [|b s]; [discriminate|].
    destruct (Ascii.eqb_spec a b) as [->|]; [|discriminate].
    intro H. apply IH in H. rewrite H. reflexivity.
Qed.

Lemma strip_suffix_unfold (suffix s : string) :
  strip_suffix suffix s
  = if (s =? suffix) then Some EmptyString
    else match s with
         | EmptyString => None
         | String c r => option_map (String c) (strip_suffix suffix r)
         end.
Proof. destruct s; reflexivity. Qed.

Lemma strip_suffix_some (suffix s d : string) : strip_suffix suffix s = Some d -> s = d ++ suffix.
Proof.
  revert d. induction s as [|c s IH]; intros d; rewrite strip_suffix_unfold.
  - destruct (String.eqb_spec "" suffix) as [E|_]; [|discriminate].
    intro H. inversion H. exact E.
  - destruct (String.eqb_spec (String c s) suffix) as [E|_].
    + intro H. inversion H. exact E.
    + destruct (strip_suffix suffix s) as [d'|]; simpl; [|discriminate].
      intro H. inversion H. simpl. rewrite <- (IH d' eq_refl). reflexivity.
Qed.

Lemma span_digits_append (s digits rest : string) :
  span_digits s = (digits, rest) -> s = digits ++ rest.
Proof.
  revert digits rest. induction s as [|c s IH]; intros digits rest; simpl.
  - intro H. inversion H. reflexivity.
  - destruct (is_digit c).
    + destruct (span_digits s) as [d r]. intro H. inversion H. subst.
      simpl. rewrite (IH d rest eq_refl). reflexivity.
    + intro H. inversion H. reflexivity.
Qed.

Lemma span_digits_digits (s digits rest : string) :
  span_digits s = (digits, rest) -> string_forall is_digit digits = true.
Proof.
  revert digits rest. induction s as [|c s IH]; intros digits rest; simpl.
  - intro H. inversion H. reflexivity.
  - destruct (is_digit c) eqn:Hc.
    + destruct (span_digits s) as [d r]. intro H. inversion H. subst.
      simpl. rewrite Hc. simpl. eapply IH. reflexivity.
    + intro H. inversion H. reflexivity.
Qed.

(** A name that matches is the concatenation of its captures. *)
Lemma match_migration_sound (file version description : string) (dir : direction) :
  match_migration file = Some (version, description, dir) ->
  file = "V" ++ version ++ "__" ++ description ++ direction_suffix dir
  /\ string_forall is_digit version = true
  /\ version <> ""
  /\ description <> "".
Proof.
  unfold match_migration.
  destruct (strip_prefix "V" file) as [rest|] eqn:Hv; [|discriminate].
  apply strip_prefix_some in Hv.
  destruct (span_digits rest) as [digits rest'] eqn:Hs.
  pose proof (span_digits_digits _ _ _ Hs) as Hdig.
  apply span_digits_append in Hs.
  destruct digits as [|c0 digits]; [discriminate|].
  destruct (strip_prefix "__" rest') as [tail|] eqn:Hu; [|discriminate].
  apply strip_prefix_some in Hu.
  destruct (has_line_terminator tail); [discriminate|].
  destruct (strip_suffix ".up.sql" tail) as [[|c d]|] eqn:Hup;
    [ | intro H; inversion H; subst; apply strip_suffix_some in Hup;
        split; [rewrite Hup; reflexivity | repeat split; [assumption|discriminate|discriminate]] | ];
    (destruct (strip_suffix ".down.sql" tail) as [[|c' d']|] eqn:Hdown;
     [ discriminate
     | intro H; inversion H; subst; apply strip_suffix_some in Hdown;
       split; [rewrite Hdown; reflexivity | repeat split; [assumption|discriminate|discriminate]]
     | discriminate ]).
Qed.

(** The key of the map determines the version and the description. *)
Lemma migration_key_inj (v v' d d' : string) :
  string_forall is_digit v = true ->
  string_forall is_digit v' = true ->
  "V" ++ v ++ "__" ++ d = "V" ++ v' ++ "__" ++ d' ->
  v = v' /\ d = d'.
Proof.
  intros Hv Hv' H. simpl in H. inversion H as [H']. clear H.
  revert v' Hv' H'. induction v as [|c v IH]; intros [|c' v'] Hv' H'; simpl in *.
  - inversion H'. auto.
  - inversion H'. subst c'. discriminate.
  - inversion H'. subst c. discriminate.
  - inversion H' as [[Hc Hrest]]. subst c'.
    apply andb_true_iff in Hv, Hv'. destruct Hv as [_ Hv]. destruct Hv' as [_ Hv'].
    destruct (IH Hv v' Hv' Hrest) as [-> ->]. auto.
Qed.

Lemma path_join_inj (dir f g : string) : path_join dir f = path_join dir g -> f = g.
Proof.
  unfold path_join. intro H. apply append_inj_r in H. simpl in H. inversion H. reflexivity.
Qed.

Lemma path_join_truthy (dir f : string) : truthy (path_join dir f) = true.
Proof. unfold path_join. destruct dir; reflexivity. Qed.

Lemma length_append (a b : string) :
  String.length (a ++ b) = (String.length a + String.length b)%nat.
Proof. induction a as [|c a IH]; simpl; [reflexivity|]. rewrite IH. reflexivity. Qed.

Lemma span_digits_before_underscore (v tail : string) :
  string_forall is_digit v = true ->
  span_digits (v ++ String "_" tail) = (v, String "_" tail).
Proof.
  intros Hv. induction v as [|c v IH]; simpl in *; [reflexivity|].
  apply andb_true_iff in Hv. destruct Hv as [Hc Hv]. rewrite Hc, (IH Hv). reflexivity.
Qed.

Lemma append_same_length_inj (a b s1 s2 : string) :
  String.length s1 = String.length s2 -> a ++ s1 = b ++ s2 -> a = b /\ s1 = s2.
Proof.
  intros Hlen. revert b. induction a as [|c a IH]; intros [|c' b] H; simpl in H.
  - auto.
  - exfalso. apply (f_equal String.length) in H. simpl in H.
    rewrite length_append in H. lia.
  - exfalso. apply (f_equal String.length) in H. simpl in H.
    rewrite length_append in H. lia.
  - inversion H as [[Hc Hrest]]. destruct (IH b Hrest) as [-> ->]. auto.
Qed.

Lemma strip_suffix_append (suffix d : string) :
  strip_suffix suffix (d ++ suffix) = Some d.
Proof.
  induction d as [|c d IH]; rewrite strip_suffix_unfold.
  - simpl. rewrite String.eqb_refl. reflexivity.
  - destruct (String.eqb_spec (String c d ++ suffix) suffix) as [E|_].
    + exfalso. apply (f_equal String.length) in E. simpl in E.
      rewrite length_append in E. lia.
    + simpl. rewrite IH. reflexivity.
Qed.

Lemma string_exists_append (p : ascii -> bool) (a b : string) :
  string_exists p (a ++ b) = string_exists p a || string_exists p b.
Proof.
  induction a as [|c a IH]; simpl; [reflexivity|]. rewrite IH, orb_assoc. reflexivity.
Qed.

(** A line terminator does not straddle the dot of the suffix. *)
Lemma has_line_terminator_before_dot (a r : string) :
  has_line_terminator (a ++ String "." r)
  = has_line_terminator a || has_line_terminator (String "." r).
Proof.
  induction a as [|c a IH].
  - reflexivity.
  - change (String c a ++ String "." r) with (String c (a ++ String "." r)).
    cbn [has_line_terminator]. rewrite IH.
    assert (E : starts_line_terminator (String c (a ++ String "." r))
                = starts_line_terminator (String c a)).
    { destruct a as [|c1 [|c2 a]]; simpl.
      - destruct r; reflexivity.
      - rewrite andb_false_r. reflexivity.
      - reflexivity. }
    rewrite E, orb_assoc. reflexivity.
Qed.

Lemma has_line_terminator_suffix (d : string) (dir : direction) :
  has_line_terminator (d ++ direction_suffix dir) = has_line_terminator d.
Proof.
  destruct dir; simpl direction_suffix;
    rewrite has_line_terminator_before_dot; apply orb_false_r.
Qed.

(** The names that match are those of the pattern, and only those. *)
Lemma match_migration_complete (version description : string) (dir : direction) :
  version <> "" ->
  string_forall is_digit version = true ->
  description <> "" ->
  has_line_terminator description = false ->
  match_migration ("V" ++ version ++ "__" ++ description ++ direction_suffix dir)
  = Some (version, description, dir).
Proof.
  intros Hne Hdig Hd Hlt. unfold match_migration.
  change (strip_prefix "V" ("V" ++ version ++ "__" ++ description ++ direction_suffix dir))
    with (Some (version ++ String "_" (String "_" (description ++ direction_suffix dir)))).
  cbv iota beta.
  rewrite (span_digits_before_underscore version _ Hdig).
  destruct version as [|c0 v]; [contradiction|].
  change (strip_prefix "__" (String "_" (String "_" (description ++ direction_suffix dir))))
    with (Some (description ++ direction_suffix dir)).
  cbv iota beta.
  rewrite has_line_terminator_suffix, Hlt.
  destruct description as [|c d]; [contradiction|].
  destruct dir; simpl direction_suffix.
  - rewrite strip_suffix_append. reflexivity.
  - rewrite strip_suffix_append.
    destruct (strip_suffix ".up.sql" (String c d ++ ".down.sql")) as [x|] eqn:Hup;
      [|reflexivity].
    exfalso. apply strip_suffix_some in Hup.
    change (String c d ++ ".down.sql") with (String c d ++ ".d" ++ "own.sql") in Hup.
    rewrite <- append_assoc in Hup.
    apply append_same_length_inj in Hup; [|reflexivity].
    destruct Hup as [_ Hup]. discriminate.
Qed.

(** * [Array.prototype.sort] *)

Section ArraySortFacts.
Context {A : Type} (compareFn : A -> A -> comparison).

Lemma insert_sorted_perm (x : A) (l : list A) :
  Permutation (x :: l) (insert_sorted compareFn x l).
Proof.
  induction l as [|y l IH]; simpl; [reflexivity|].
  destruct (not_after compareFn x y); [reflexivity|].
  rewrite perm_swap. apply perm_skip. exact IH.
Qed.

Lemma Array_sort_perm (l : list A) : Permutation l (Array_sort compareFn l).
Proof.
  induction l as [|x l IH]; simpl; [reflexivity|].
  rewrite <- insert_sorted_perm. apply perm_skip. exact IH.
Qed.

Lemma Array_sort_In (l : list A) (x : A) : In x (Array_sort compareFn l) <-> In x l.
Proof.
  split; apply Permutation_in; [symmetry|]; apply Array_sort_perm.
Qed.

Hypothesis le_total : forall x y, not_after compareFn x y = true \/ not_after compareFn y x = true.
Hypothesis le_trans : forall x y z, not_after compareFn x y = true -> not_after compareFn y z = true -> not_after compareFn x z = true.

Lemma insert_sorted_sorted (x : A) (l : list A) :
  StronglySorted (fun a b => not_after compareFn a b = true) l ->
  StronglySorted (fun a b => not_after compareFn a b = true) (insert_sorted compareFn x l).
Proof.
  induction 1 as [|y l Hs IH Hall]; simpl.
  - constructor; constructor.
  - destruct (not_after compareFn x y) eqn:Hxy.
    + constructor.
      * constructor; assumption.
      * constructor; [exact Hxy|].
        eapply Forall_impl; [|exact Hall]. intros a Ha. eapply le_trans; eassumption.
    + constructor; [exact IH|].
      apply (Permutation_Forall (insert_sorted_perm x l)).
      constructor; [|exact Hall].
      destruct (le_total x y) as [H|H]; [congruence|exact H].
Qed.

Lemma Array_sort_sorted (l : list A) :
  StronglySorted (fun a b => not_after compareFn a b = true) (Array_sort compareFn l).
Proof.
  induction l as [|x l IH]; simpl; [constructor|].
  apply insert_sorted_sorted. exact IH.
Qed.

Hypothesis le_antisym : forall x y, not_after compareFn x y = true -> not_after compareFn y x = true -> x = y.

Lemma insert_sorted_comm (x y : A) (l : list A) :
  insert_sorted compareFn x (insert_sorted compareFn y l)
  = insert_sorted compareFn y (insert_sorted compareFn x l).
Proof.
  induction l as [|z l IH]; simpl.
  - destruct (not_after compareFn x y) eqn:Hxy, (not_after compareFn y x) eqn:Hyx; try reflexivity.
    + rewrite (le_antisym x y Hxy Hyx). reflexivity.
    + destruct (le_total x y); congruence.
  - destruct (not_after compareFn y z) eqn:Hyz, (not_after compareFn x z) eqn:Hxz; simpl.
    + destruct (not_after compareFn x y) eqn:Hxy, (not_after compareFn y x) eqn:Hyx; rewrite ?Hyz, ?Hxz; try reflexivity.
      * rewrite (le_antisym x y Hxy Hyx). reflexivity.
      * destruct (le_total x y); congruence.
    + destruct (not_after compareFn x y) eqn:Hxy.
      * rewrite (le_trans x y z Hxy Hyz) in Hxz. discriminate.
      * rewrite Hxz, Hyz. reflexivity.
    + destruct (not_after compareFn y x) eqn:Hyx.
      * rewrite (le_trans y x z Hyx Hxz) in Hyz. discriminate.
      * rewrite Hxz, Hyz. reflexivity.
    + rewrite Hxz, Hyz, IH. reflexivity.
Qed.

(** For a total order the result depends on the elements only, not
    on the order they come in. *)
Lemma Array_sort_order_independent (l l' : list A) :
  Permutation l l' -> Array_sort compareFn l = Array_sort compareFn l'.
Proof.
  induction 1 as [|x l l' _ IH|x y l|l l' l'' _ IH1 _ IH2]; simpl.
  - reflexivity.
  - rewrite IH. reflexivity.
  - apply insert_sorted_comm.
  - congruence.
Qed.
End ArraySortFacts.

Lemma string_leb_trans (s1 s2 s3 : string) :
  not_after String.compare s1 s2 = true ->
  not_after String.compare s2 s3 = true ->
  not_after String.compare s1 s3 = true.
Proof.
  unfold not_after. revert s2 s3.
  induction s1 as [|a s1 IH]; intros [|b s2] [|c s3]; simpl; try congruence.
  unfold Ascii.compare.
  destruct (N.compare_spec (N_of_ascii a) (N_of_ascii b)) as [Hab|Hab|Hab];
    destruct (N.compare_spec (N_of_ascii b) (N_of_ascii c)) as [Hbc|Hbc|Hbc];
    destruct (N.compare_spec (N_of_ascii a) (N_of_ascii c)) as [Hac|Hac|Hac];
    try congruence; try lia; auto.
  apply IH.
Qed.

Lemma string_leb_total (s1 s2 : string) :
  not_after String.compare s1 s2 = true \/ not_after String.compare s2 s1 = true.
Proof. exact (String.leb_total s1 s2). Qed.

Lemma string_leb_antisym (s1 s2 : string) :
  not_after String.compare s1 s2 = true -> not_after String.compare s2 s1 = true -> s1 = s2.
Proof. exact (String.leb_antisym s1 s2). Qed.

(** The order of the default [sort] is total on the names. *)
Lemma code_unit_rank_inj (a b : ascii) : code_unit_rank a = code_unit_rank b -> a = b.
Proof.
  unfold code_unit_rank.
  destruct (Ascii.eqb_spec a "238"), (Ascii.eqb_spec a "239"),
    (Ascii.eqb_spec a "254"), (Ascii.eqb_spec a "255"),
    (Ascii.eqb_spec b "238"), (Ascii.eqb_spec b "239"),
    (Ascii.eqb_spec b "254"), (Ascii.eqb_spec b "255");
    subst; intro H; try discriminate; try reflexivity; try congruence.
Qed.

Lemma string_map_inj (f : ascii -> ascii) (a b : string) :
  (forall x y, f x = f y -> x = y) -> string_map f a = string_map f b -> a = b.
Proof.
  intros Hf. revert b. induction a as [|c a IH]; intros [|c' b]; simpl; try discriminate.
  - reflexivity.
  - intro H. inversion H as [[Hc Hr]]. rewrite (Hf _ _ Hc), (IH _ Hr). reflexivity.
Qed.

Lemma code_unit_leb_trans (s1 s2 s3 : string) :
  not_after compare_code_units s1 s2 = true ->
  not_after compare_code_units s2 s3 = true ->
  not_after compare_code_units s1 s3 = true.
Proof. apply string_leb_trans. Qed.

Lemma code_unit_leb_total (s1 s2 : string) :
  not_after compare_code_units s1 s2 = true \/ not_after compare_code_units s2 s1 = true.
Proof. apply string_leb_total. Qed.

Lemma code_unit_leb_antisym (s1 s2 : string) :
  not_after compare_code_units s1 s2 = true ->
  not_after compare_code_units s2 s1 = true -> s1 = s2.
Proof.
  intros H1 H2. apply (string_map_inj code_unit_rank); [exact code_unit_rank_inj|].
  apply string_leb_antisym; assumption.
Qed.

Lemma compare_versions_le (a b : MigrationFile.t) :
  not_after compare_versions a b = true
  <-> (numeric_value (MigrationFile.version a) <= numeric_value (MigrationFile.version b))%N.
Proof.
  unfold not_after, compare_versions, localeCompare_numeric.
  destruct (N.compare_spec (numeric_value (MigrationFile.version a))
              (numeric_value (MigrationFile.version b))); split; intros; try lia; congruence.
Qed.

(** * The map of [loadMigrationFiles] *)

Lemma map_has_In (key : string) (m : MigrationMap) :
  map_has key m = true <-> In key (map fst m).
Proof.
  induction m as [|[k v] m IH]; simpl.
  - split; [discriminate|contradiction].
  - rewrite orb_true_iff, IH, String.eqb_eq. reflexivity.
Qed.

Lemma map_modify_keys (key : string) (f : MigrationFile.t -> MigrationFile.t)
    (m : MigrationMap) :
  map fst (map_modify key f m) = map fst m.
Proof.
  induction m as [|[k v] m IH]; simpl; [reflexivity|].
  destruct (k =? key); simpl; [reflexivity|]. rewrite IH. reflexivity.
Qed.

Lemma map_modify_In (key : string) (f : MigrationFile.t -> MigrationFile.t)
    (m : MigrationMap) (e : string * MigrationFile.t) :
  In e (map_modify key f m) ->
  In e m \/ exists v0, In (key, v0) m /\ e = (key, f v0).
Proof.
  induction m as [|[k v] m IH]; simpl; [contradiction|].
  destruct (String.eqb_spec k key) as [->|Hne]; simpl.
  - intros [<-|H]; [right; exists v; auto | left; auto].
  - intros [<-|H]; [left; auto|].
    destruct (IH H) as [H'|(v0 & H' & ->)]; [left; auto | right; exists v0; auto].
Qed.

Lemma entry_from_incl (dir : string) (files files' : list string)
    (e : string * MigrationFile.t) :
  incl files files' -> entry_from dir files e -> entry_from dir files' e.
Proof.
  intros Hincl (d & Hk & Hdig & Hn & Hup & Hdown).
  exists d. repeat split; try assumption.
  - destruct Hup as [H|(f & Hf & H)]; [left; exact H | right; exists f; auto].
  - destruct Hdown as [H|(f & Hf & H)]; [left; exact H | right; exists f; auto].
Qed.

Lemma load_file_invariant (dir : string) (files : list string) (m : MigrationMap)
    (file : string) :
  map_invariant dir files m ->
  map_invariant dir (files ++ [file])%list (load_file dir m file).
Proof.
  intros [Hnd Hall].
  assert (Hincl : incl files (files ++ [file])%list) by (apply incl_appl, incl_refl).
  assert (Hlast : In file (files ++ [file])%list) by (apply in_or_app; right; left; reflexivity).
  unfold load_file.
  destruct (match_migration file) as [[[v d] dirn]|] eqn:Hm.
  2:{ split; [exact Hnd|]. intros e He. eapply entry_from_incl; eauto. }
  destruct (match_migration_sound _ _ _ _ Hm) as (_ & Hdig & _ & _).
  set (key := "V" ++ v ++ "__" ++ d).
  set (fresh := {| MigrationFile.version := v;
                   MigrationFile.name := replace_underscores d;
                   MigrationFile.upPath := "";
                   MigrationFile.downPath := None |}).
  set (m1 := if map_has key m then m else map_set key fresh m).
  assert (H1 : map_invariant dir (files ++ [file])%list m1).
  { unfold m1. destruct (map_has key m) eqn:Hhas.
    - split; [exact Hnd|]. intros e He. eapply entry_from_incl; eauto.
    - unfold map_set. split.
      + rewrite map_app. simpl.
        apply NoDup_app; [exact Hnd | constructor; [intros []|constructor] | ].
        intros k Hk [<-|[]].
        apply map_has_In in Hk. congruence.
      + intros e He. apply in_app_or in He. destruct He as [He|[<-|[]]].
        * eapply entry_from_incl; eauto.
        * exists d. simpl. repeat split; auto. }
  destruct H1 as [Hnd1 Hall1].
  assert (Hmod : forall g,
            (forall v0, entry_from dir (files ++ [file])%list (key, v0) ->
                        entry_from dir (files ++ [file])%list (key, g v0)) ->
            map_invariant dir (files ++ [file])%list (map_modify key g m1)).
  { intros g Hg. split.
    - rewrite map_modify_keys. exact Hnd1.
    - intros e He. apply map_modify_In in He.
      destruct He as [He|(v0 & He & ->)]; [auto|]. apply Hg. auto. }
  assert (Hsame : forall v0 d0,
            key = "V" ++ MigrationFile.version v0 ++ "__" ++ d0 ->
            string_forall is_digit (MigrationFile.version v0) = true ->
            MigrationFile.version v0 = v /\ d0 = d).
  { intros v0 d0 Hk Hd0. unfold key in Hk.
    destruct (migration_key_inj _ _ _ _ Hdig Hd0 Hk) as [-> ->]. auto. }
  destruct dirn; apply Hmod; intros v0 (d0 & Hk & Hd0 & Hn & Hup & Hdown); simpl in *;
    destruct (Hsame v0 d0 Hk Hd0) as [Hv ->]; exists d; simpl; repeat split; auto.
  - right. exists file. rewrite Hv. auto.
  - right. exists file. rewrite Hv. auto.
Qed.

Lemma fold_load_file_invariant (dir : string) (files done : list string) (m : MigrationMap) :
  map_invariant dir done m ->
  map_invariant dir (done ++ files)%list (fold_left (load_file dir) files m).
Proof.
  revert done m. induction files as [|file files IH]; intros done m H; simpl.
  - rewrite app_nil_r. exact H.
  - replace (done ++ file :: files)%list with ((done ++ [file]) ++ files)%list
      by (rewrite <- app_assoc; reflexivity).
    apply IH. apply load_file_invariant. exact H.
Qed.

(** * The catalog *)

Lemma catalog_map_invariant (dir : string) (entries : list string) :
  map_invariant dir entries
    (fold_left (load_file dir) (Array_sort compare_code_units entries) []).
Proof.
  destruct (fold_load_file_invariant dir (Array_sort compare_code_units entries) [] [])
    as [Hnd Hall].
  { split; [constructor|]. intros e []. }
  split; [exact Hnd|]. intros e He.
  eapply entry_from_incl; [|apply Hall; exact He].
  intros f Hf. simpl in Hf. apply Array_sort_In in Hf. exact Hf.
Qed.

Lemma catalog_In (dir : string) (entries : list string) (m : MigrationFile.t) :
  In m (catalog dir entries) <->
  truthy (MigrationFile.upPath m) = true
  /\ exists key, In (key, m) (fold_left (load_file dir) (Array_sort compare_code_units entries) []).
Proof.
  unfold catalog, map_values. rewrite Array_sort_In, filter_In, in_map_iff.
  split.
  - intros [([k m'] & E & H) Hup]. simpl in E. subst m'. split; [exact Hup|]. exists k. exact H.
  - intros [Hup (k & H)]. split; [|exact Hup]. exists (k, m). auto.
Qed.

(** Every entry of the catalog was made from an up file of the listing,
    and its down path, when it has one, from the down file of the same
    version and description. *)
Lemma catalog_entry_from_up_file (dir : string) (entries : list string) (m : MigrationFile.t) :
  In m (catalog dir entries) ->
  exists description f,
    MigrationFile.name m = replace_underscores description
    /\ In f entries
    /\ match_migration f = Some (MigrationFile.version m, description, up)
    /\ MigrationFile.upPath m = path_join dir f
    /\ (MigrationFile.downPath m = None
        \/ exists g, In g entries
             /\ match_migration g = Some (MigrationFile.version m, description, down)
             /\ MigrationFile.downPath m = Some (path_join dir g)).
Proof.
  intros Hin. apply catalog_In in Hin. destruct Hin as [Hup (key & Hk)].
  destruct (catalog_map_invariant dir entries) as [_ Hall].
  destruct (Hall _ Hk) as (d & Hkey & Hdig & Hname & Hu & Hd). simpl in *.
  destruct Hu as [Hu|(f & Hf & Hm & Hu)].
  - rewrite Hu in Hup. discriminate.
  - exists d, f. repeat split; assumption.
Qed.

Lemma NoDup_map_filter_values (g : MigrationFile.t -> string)
    (P : MigrationFile.t -> bool) (m : MigrationMap) :
  NoDup (map fst m) ->
  (forall k1 v1 k2 v2, In (k1, v1) m -> In (k2, v2) m ->
     P v1 = true -> P v2 = true -> g v1 = g v2 -> k1 = k2) ->
  NoDup (map g (filter P (map_values m))).
Proof.
  induction m as [|[k v] m IH]; simpl; intros Hnd Hinj; [constructor|].
  inversion Hnd as [|? ? Hk Hnd']; subst.
  assert (IH' : NoDup (map g (filter P (map_values m)))).
  { apply IH; [exact Hnd'|]. intros k1 v1 k2 v2 H1 H2. apply Hinj; right; assumption. }
  destruct (P v) eqn:HP; [|exact IH'].
  simpl. constructor; [|exact IH'].
  intro Hin. apply in_map_iff in Hin. destruct Hin as (v2 & Hg & Hv2).
  apply filter_In in Hv2. destruct Hv2 as [Hv2 HP2].
  unfold map_values in Hv2. apply in_map_iff in Hv2. destruct Hv2 as ([k2 v2'] & E & Hv2).
  simpl in E. subst v2'.
  assert (Ek : k = k2).
  { apply (Hinj k v k2 v2); auto. }
  apply Hk. rewrite Ek. apply in_map_iff. exists (k2, v2). auto.
Qed.

Lemma StronglySorted_impl {A : Type} (P Q : A -> A -> Prop) (l : list A) :
  (forall a b, P a b -> Q a b) -> StronglySorted P l -> StronglySorted Q l.
Proof.
  intros HPQ. induction 1 as [|x l Hs IH Hall]; constructor; [exact IH|].
  eapply Forall_impl; [|exact Hall]. intros a. apply HPQ.
Qed.

(** C2 as it is written fails: two files with the same version digits
    and different descriptions give two entries of the same version. *)
Lemma catalog_repeats_a_version :
  catalog "/app/sql" ["V001__a.up.sql"; "V001__b.up.sql"]
  = [ MigrationFile.make "001" "a" "/app/sql/V001__a.up.sql" None;
      MigrationFile.make "001" "b" "/app/sql/V001__b.up.sql" None ]
  /\ ~ NoDup (map MigrationFile.version
                (catalog "/app/sql" ["V001__a.up.sql"; "V001__b.up.sql"])).
Proof.
  split; [reflexivity|].
  intro H. vm_compute in H. inversion H as [|x l Hnotin _]; subst.
  apply Hnotin. left. reflexivity.
Qed.

(** C3. The catalog is in ascending order of the numbers its versions
    denote (each version is a non-empty string of decimal digits, and
    ["2"] comes before ["10"]), and it is the same catalog for every
    permutation of the directory listing. *)
Theorem catalog_sorted_by_numeric_version (dir : string) (entries : list string) :
  StronglySorted
    (fun a b => (numeric_value (MigrationFile.version a)
                 <= numeric_value (MigrationFile.version b))%N)
    (catalog dir entries)
  /\ (forall m, In m (catalog dir entries) ->
        string_forall is_digit (MigrationFile.version m) = true
        /\ MigrationFile.version m <> "")
  /\ localeCompare_numeric "2" "10" = Lt
  /\ (forall entries', Permutation entries entries' ->
        catalog dir entries' = catalog dir entries).
Proof.
  split; [|split; [|split]].
  - unfold catalog.
    eapply StronglySorted_impl; [|apply Array_sort_sorted].
    + intros a b. apply compare_versions_le.
    + intros x y. rewrite !compare_versions_le. lia.
    + intros x y z. rewrite !compare_versions_le. lia.
  - intros m Hin.
    destruct (catalog_entry_from_up_file dir entries m Hin)
      as (d & f & _ & _ & Hm & _).
    apply match_migration_sound in Hm. tauto.
  - reflexivity.
  - intros entries' Hperm. unfold catalog.
    rewrite (Array_sort_order_independent compare_code_units
               code_unit_leb_total code_unit_leb_trans code_unit_leb_antisym _ _ Hperm).
    reflexivity.
Qed.

Lemma catalog_sorted_by_numeric_version_witness :
  catalog "/app/sql" ["V10__b.up.sql"; "V9__a.down.sql"; "V9__a.up.sql"; "V2__c.up.sql"]
  = catalog "/app/sql" ["V2__c.up.sql"; "V9__a.up.sql"; "V10__b.up.sql"; "V9__a.down.sql"].
Proof.
  refine (proj2 (proj2 (proj2 (catalog_sorted_by_numeric_version "/app/sql"
            ["V2__c.up.sql"; "V9__a.up.sql"; "V10__b.up.sql"; "V9__a.down.sql"])))
            ["V10__b.up.sql"; "V9__a.down.sql"; "V9__a.up.sql"; "V2__c.up.sql"] _).
  apply Permutation_sym.
  apply (perm_trans (l' := ["V9__a.down.sql"; "V10__b.up.sql"; "V9__a.up.sql"; "V2__c.up.sql"]));
    [apply perm_swap|].
  apply (perm_trans (l' := ["V9__a.down.sql"; "V2__c.up.sql"; "V9__a.up.sql"; "V10__b.up.sql"])).
  - apply perm_skip.
    apply (perm_trans (l' := ["V9__a.up.sql"; "V10__b.up.sql"; "V2__c.up.sql"]));
      [apply perm_swap|].
    apply (perm_trans (l' := ["V9__a.up.sql"; "V2__c.up.sql"; "V10__b.up.sql"]));
      [apply perm_skip, perm_swap|apply perm_swap].
  - apply (perm_trans (l' := ["V2__c.up.sql"; "V9__a.down.sql"; "V9__a.up.sql"; "V10__b.up.sql"]));
      [apply perm_swap|].
    apply perm_skip.
    apply (perm_trans (l' := ["V9__a.up.sql"; "V9__a.down.sql"; "V10__b.up.sql"]));
      [apply perm_swap|].
    apply perm_skip. apply perm_swap.
Defined.

(** * [FileMigrationManager] *)

Section ManagerFacts.
Context {R : Type} {RT : Runtime R}.
Variable env : Env.

Lemma loadMigrationFiles_directory (dir : string) (entries : list string) (w : World R) :
  fs env dir = Some (Directory entries) ->
  loadMigrationFiles env dir w
  = (inr (catalog dir entries),
     {| outside := outside w; queries := queries w;
        console := (console w ++ [load_line dir (catalog dir entries)])%list |}).
Proof.
  intros Hdir. unfold loadMigrationFiles, existsSync, readdirSync, load_line.
  rewrite Hdir. simpl. unfold bind, ret.
  destruct (List.length (catalog dir entries) =? 0)%nat; reflexivity.
Qed.

Lemma readSqlFile_outcome (p : string) (w : World R) :
  (exists text, fs env p = Some (File text) /\ readSqlFile env p w = (inr text, w))
  \/ ((forall text, fs env p <> Some (File text))
      /\ exists e, readSqlFile env p w = (inl e, w)).
Proof.
  unfold readSqlFile, existsSync, readFileSync, throw, ret.
  destruct (fs env p) as [[text|entries]|]; simpl.
  - left. eauto.
  - right. split; [discriminate|eauto].
  - right. split; [discriminate|eauto].
Qed.

Lemma require_outcome (key : string) (w : World R) :
  (exists v, get (config env) key = Some v /\ require env key w = (inr v, w))
  \/ (get (config env) key = None /\ exists e, require env key w = (inl e, w)).
Proof.
  unfold require, throw, ret. destruct (get (config env) key); eauto.
Qed.

(** One turn of the loop: it throws, or it makes the resource of the
    file, depending on the previous one, and goes on. *)
Lemma createMigrationResources_loop_step (f : MigrationFile.t)
    (rest : list MigrationFile.t) (migrations : list SchemaVersion)
    (previous : option SchemaVersion) (w : World R) :
  (exists e, createMigrationResources_loop env (f :: rest) migrations previous w = (inl e, w))
  \/ exists r,
       resourceName r = path_basename (MigrationFile.upPath f) ".sql"
       /\ SchemaVersionArgs.version (args r) = MigrationFile.version f
       /\ SchemaVersionArgs.name (args r) = MigrationFile.name f
       /\ dependsOn r = match previous with Some p => [p] | None => [] end
       /\ createMigrationResources_loop env (f :: rest) migrations previous w
          = createMigrationResources_loop env rest (migrations ++ [r])%list (Some r) w.
Proof.
  remember (createMigrationResources_loop env (f :: rest) migrations previous w)
    as res eqn:Hres.
  cbn [createMigrationResources_loop] in Hres. unfold bind at 1 in Hres.
  destruct (readSqlFile_outcome (MigrationFile.upPath f) w)
    as [(upSql & _ & E)|(_ & e & E)]; rewrite E in Hres; [|left; eauto].
  unfold bind at 1 in Hres.
  assert (Hdb : forall downSql : option string,
            res = bind (require env "database")
                    (fun database =>
                       createMigrationResources_loop env rest
                         (migrations ++
                          [new_SchemaVersion
                             (path_basename (MigrationFile.upPath f) ".sql")
                             {| SchemaVersionArgs.version := MigrationFile.version f;
                                SchemaVersionArgs.name := MigrationFile.name f;
                                SchemaVersionArgs.upSql := upSql;
                                SchemaVersionArgs.downSql := downSql;
                                SchemaVersionArgs.database := database |}
                             match previous with Some p => [p] | None => [] end])%list
                         (Some
                            (new_SchemaVersion
                               (path_basename (MigrationFile.upPath f) ".sql")
                               {| SchemaVersionArgs.version := MigrationFile.version f;
                                  SchemaVersionArgs.name := MigrationFile.name f;
                                  SchemaVersionArgs.upSql := upSql;
                                  SchemaVersionArgs.downSql := downSql;
                                  SchemaVersionArgs.database := database |}
                               match previous with Some p => [p] | None => [] end))) w ->
            (exists e, res = (inl e, w))
            \/ exists r,
                 resourceName r = path_basename (MigrationFile.upPath f) ".sql"
                 /\ SchemaVersionArgs.version (args r) = MigrationFile.version f
                 /\ SchemaVersionArgs.name (args r) = MigrationFile.name f
                 /\ dependsOn r = match previous with Some p => [p] | None => [] end
                 /\ res = createMigrationResources_loop env rest
                            (migrations ++ [r])%list (Some r) w).
  { intros downSql Hr. unfold bind at 1 in Hr.
    destruct (require_outcome "database" w) as [(db & _ & E')|(_ & e & E')];
      rewrite E' in Hr; [|left; eauto].
    right. eexists. refine (conj _ (conj _ (conj _ (conj _ Hr)))); reflexivity. }
  destruct (MigrationFile.downPath f) as [p|].
  - destruct (truthy p).
    + unfold bind at 1 in Hres.
      destruct (readSqlFile_outcome p w) as [(downSql & _ & E')|(_ & e & E')];
        rewrite E' in Hres; [|left; eauto].
      unfold ret at 1 in Hres. eapply Hdb. exact Hres.
    + unfold ret at 1 in Hres. eapply Hdb. exact Hres.
  - unfold ret at 1 in Hres. eapply Hdb. exact Hres.
Qed.

Lemma createMigrationResources_loop_chained (files : list MigrationFile.t) :
  forall (migrations : list SchemaVersion) (previous : option SchemaVersion)
         (w w' : World R) (rs : list SchemaVersion),
    createMigrationResources_loop env files migrations previous w = (inr rs, w') ->
    w' = w /\ exists made, rs = (migrations ++ made)%list /\ chained previous files made.
Proof.
  induction files as [|f rest IH]; intros migrations previous w w' rs.
  - simpl. unfold ret. intro H. inversion H. subst. split; [reflexivity|].
    exists []. rewrite app_nil_r. simpl. auto.
  - destruct (createMigrationResources_loop_step f rest migrations previous w)
      as [(e & ->)|(r & Hn & Hv & Hnm & Hdep & ->)]; [discriminate|].
    intro H. apply IH in H. destruct H as [-> (made & -> & Hch)].
    split; [reflexivity|]. exists (r :: made). rewrite <- app_assoc. simpl.
    repeat split; assumption.
Qed.

Lemma createMigrationResources_loop_total (files : list MigrationFile.t) :
  readable env files ->
  get (config env) "database" <> None ->
  forall (migrations : list SchemaVersion) (previous : option SchemaVersion) (w : World R),
  exists rs, createMigrationResources_loop env files migrations previous w = (inr rs, w).
Proof.
  intros Hread Hdb. induction files as [|f rest IH]; intros migrations previous w.
  - simpl. unfold ret. eauto.
  - assert (Hrest : readable env rest).
    { intros g Hg. apply Hread. right. exact Hg. }
    destruct (Hread f (or_introl eq_refl)) as [(upText & Hup) Hdown].
    cbn [createMigrationResources_loop]. unfold bind at 1.
    destruct (readSqlFile_outcome (MigrationFile.upPath f) w)
      as [(upSql & _ & ->)|(Hno & _)]; [|exfalso; eapply Hno; eauto].
    unfold bind at 1.
    destruct (require_outcome "database" w) as [(db & _ & Hreq)|(Hnone & _)];
      [|contradiction].
    destruct (MigrationFile.downPath f) as [p|].
    + destruct (truthy p) eqn:Hp.
      * destruct (Hdown p eq_refl Hp) as (downText & Hdp).
        unfold bind at 1.
        destruct (readSqlFile_outcome p w) as [(downSql & _ & ->)|(Hno & _)];
          [|exfalso; eapply Hno; eauto].
        unfold ret at 1. unfold bind at 1. rewrite Hreq. apply IH. exact Hrest.
      * unfold ret at 1. unfold bind at 1. rewrite Hreq. apply IH. exact Hrest.
    + unfold ret at 1. unfold bind at 1. rewrite Hreq. apply IH. exact Hrest.
Qed.

End ManagerFacts.

Lemma chained_nth (files : list MigrationFile.t) :
  forall (previous : option SchemaVersion) (rs : list SchemaVersion),
    chained previous files rs ->
    List.length rs = List.length files
    /\ forall i r, nth_error rs i = Some r ->
         (exists f, nth_error files i = Some f
                    /\ resourceName r = path_basename (MigrationFile.upPath f) ".sql"
                    /\ SchemaVersionArgs.version (args r) = MigrationFile.version f
                    /\ SchemaVersionArgs.name (args r) = MigrationFile.name f)
         /\ match i with
            | O => dependsOn r = match previous with Some p => [p] | None => [] end
            | S j => exists before, nth_error rs j = Some before /\ dependsOn r = [before]
            end.
Proof.
  induction files as [|f files IH]; intros previous [|r0 rs]; simpl; try contradiction.
  - intros _. split; [reflexivity|]. intros [|i] r; discriminate.
  - intros (Hn & Hv & Hnm & Hdep & Hch).
    destruct (IH _ _ Hch) as [Hlen Hnth].
    split; [rewrite Hlen; reflexivity|].
    intros [|i] r; simpl.
    + intro H. inversion H. subst r0. split; [exists f; auto|exact Hdep].
    + intro H. destruct (Hnth i r H) as [Hf Hd]. split; [exact Hf|].
      destruct i as [|j]; simpl.
      * exists r0. auto.
      * exact Hd.
Qed.

(** C4. The resources [createMigrationResources] returns are one for
    each catalog entry, in catalog order; the first has an empty
    [dependsOn], and each other one has exactly the resource of the
    entry just before it.  The call returns them whenever the scripts
    can be read and the database name is configured. *)
Theorem resources_form_linear_chain
    {R : Type} {RT : Runtime R} (env : Env) (this : FileMigrationManager) (w : World R) :
  (readable env (migrationFiles this) ->
   get (config env) "database" <> None ->
   exists rs, createMigrationResources env this w = (inr rs, w))
  /\ (forall rs w',
        createMigrationResources env this w = (inr rs, w') ->
        List.length rs = List.length (migrationFiles this)
        /\ forall i r, nth_error rs i = Some r ->
             (exists f, nth_error (migrationFiles this) i = Some f
                        /\ resourceName r = path_basename (MigrationFile.upPath f) ".sql"
                        /\ SchemaVersionArgs.version (args r) = MigrationFile.version f
                        /\ SchemaVersionArgs.name (args r) = MigrationFile.name f)
             /\ match i with
                | O => dependsOn r = []
                | S j => exists before, nth_error rs j = Some before /\ dependsOn r = [before]
                end).
Proof.
  split.
  - intros Hread Hdb. apply createMigrationResources_loop_total; assumption.
  - intros rs w' H. unfold createMigrationResources in H.
    apply createMigrationResources_loop_chained in H.
    destruct H as [_ (made & -> & Hch)]. simpl.
    exact (chained_nth _ _ _ Hch).
Qed.

Lemma resources_form_linear_chain_witness :
  (exists rs,
     createMigrationResources example_env example_manager (example_world [])
     = (inr rs, example_world []))
  /\ List.length example_resources = List.length (migrationFiles example_manager)
  /\ forall i r, nth_error example_resources i = Some r ->
       (exists f, nth_error (migrationFiles example_manager) i = Some f
                  /\ resourceName r = path_basename (MigrationFile.upPath f) ".sql"
                  /\ SchemaVersionArgs.version (args r) = MigrationFile.version f
                  /\ SchemaVersionArgs.name (args r) = MigrationFile.name f)
       /\ match i with
          | O => dependsOn r = []
          | S j => exists before, nth_error example_resources j = Some before
                                  /\ dependsOn r = [before]
          end.
Proof.
  split.
  - refine (proj1 (resources_form_linear_chain example_env example_manager
                     (example_world [])) _ _).
    + intros f Hf. vm_compute in Hf.
      destruct Hf as [<-|[<-|[]]]; (split; [eexists; vm_compute; reflexivity|]);
        intros p Hp _; inversion Hp; subst; eexists; vm_compute; reflexivity.
    + simpl. discriminate.
  - refine (proj2 (resources_form_linear_chain example_env example_manager
                     (example_world [])) example_resources (example_world []) _).
    vm_compute. reflexivity.
Defined.

(** C5. Every entry of the catalog has the up path of an up file of the
    listing, whose name gives the entry its version and its name; a
    group that has a down file and no up file is in no entry of the
    catalog; and discovery on a directory returns the catalog without
    throwing. *)
Theorem catalog_keeps_only_groups_with_up_script
    {R : Type} {RT : Runtime R} (env : Env) (dir : string) (entries : list string)
    (w : World R) :
  (forall m, In m (catalog dir entries) ->
     MigrationFile.upPath m <> ""
     /\ exists f description,
          In f entries
          /\ match_migration f = Some (MigrationFile.version m, description, up)
          /\ MigrationFile.upPath m = path_join dir f
          /\ MigrationFile.name m = replace_underscores description)
  /\ (forall f version description,
        In f entries ->
        match_migration f = Some (version, description, down) ->
        (forall f', In f' entries -> match_migration f' <> Some (version, description, up)) ->
        forall m, In m (catalog dir entries) ->
                  MigrationFile.downPath m <> Some (path_join dir f))
  /\ (fs env dir = Some (Directory entries) ->
      exists w', loadMigrationFiles env dir w = (inr (catalog dir entries), w')).
Proof.
  split; [|split].
  - intros m Hin.
    destruct (catalog_entry_from_up_file dir entries m Hin)
      as (d & f & Hname & Hf & Hm & Hp & _).
    split.
    + rewrite Hp. unfold path_join. destruct dir; discriminate.
    + exists f, d. auto.
  - intros f v d Hf Hm Hnoup m Hin Hdown.
    destruct (catalog_entry_from_up_file dir entries m Hin)
      as (d' & fup & _ & Hfup & Hmup & _ & Hd).
    destruct Hd as [Hnone|(g & _ & Hmg & Hpg)]; [congruence|].
    rewrite Hpg in Hdown. inversion Hdown as [Hj]. apply path_join_inj in Hj. subst g.
    rewrite Hm in Hmg. inversion Hmg as [[Hv Hdd]]. subst v d.
    exact (Hnoup fup Hfup Hmup).
  - intros Hdir. eexists. apply loadMigrationFiles_directory. exact Hdir.
Qed.

Lemma catalog_keeps_only_groups_with_up_script_witness :
  (forall m,
     In m (catalog "/app/sql" ["V7__only_down.down.sql"; "V8__both.down.sql"; "V8__both.up.sql"]) ->
     MigrationFile.downPath m <> Some (path_join "/app/sql" "V7__only_down.down.sql"))
  /\ exists w', loadMigrationFiles example_env "/app/sql" (example_world [])
                = (inr (catalog "/app/sql"
                          ["V002__y.up.sql"; "V001__init.down.sql"; "V003__x.up.sql";
                           "V001__init.up.sql"; "V002__y.down.sql"]), w').
Proof.
  split.
  - refine (proj1 (proj2 (catalog_keeps_only_groups_with_up_script example_env "/app/sql"
              ["V7__only_down.down.sql"; "V8__both.down.sql"; "V8__both.up.sql"]
              (example_world [])))
              "V7__only_down.down.sql" "7" "only_down" _ _ _).
    + left. reflexivity.
    + reflexivity.
    + intros f' [<-|[<-|[<-|[]]]]; vm_compute; discriminate.
  - refine (proj2 (proj2 (catalog_keeps_only_groups_with_up_script example_env "/app/sql"
              ["V002__y.up.sql"; "V001__init.down.sql"; "V003__x.up.sql";
               "V001__init.up.sql"; "V002__y.down.sql"]
              (example_world []))) _).
    reflexivity.
Defined.

(** * The provider: [delete] *)

Section DeleteFacts.
Context {R : Type} {RT : Runtime R}.
Variable env : Env.

Lemma delete_on_directory (id : string) (props : SchemaVersionState.t)
    (entries : list string) (w : World R) :
  fs env (path_join (__dirname env) "sql") = Some (Directory entries) ->
  delete env id props w
  = match optional_downPath
            (find_migration props (catalog (path_join (__dirname env) "sql") entries)) with
    | Some downPath =>
        if negb (truthy downPath) || negb (existsSync env downPath)
        then skip_rollback props
        else rollback env props downPath
    | None => skip_rollback props
    end (write_line w (load_line (path_join (__dirname env) "sql")
                         (catalog (path_join (__dirname env) "sql") entries))).
Proof.
  intros Hdir. unfold delete, new_FileMigrationManager, bind.
  rewrite (loadMigrationFiles_directory env _ entries w Hdir).
  reflexivity.
Qed.

(** What [rollback] does once the client is connected, by the answers
    of the server to the statement and to the closing. *)
Lemma rollback_run (props : SchemaVersionState.t) (p text : string) (w : World R) (o1 : R) :
  configured env ->
  fs env p = Some (File text) ->
  client_connect (outside w) = (None, o1) ->
  rollback env props p w
  = let (q, o2) := client_query text o1 in
    let (e, o3) := client_end o2 in
    let w3 := {| outside := o3; queries := (queries w ++ [text])%list;
                 console := console w |} in
    let failed := fun _ : exn =>
      (ERROR, "Failed to rollback migration " ++ SchemaVersionState.version props
                ++ ":") in
    let done := (LOG, "Rolled back migration: " ++ SchemaVersionState.version props
                        ++ " - " ++ SchemaVersionState.name props) in
    match q, e with
    | None, None => (inr tt, write_line w3 done)
    | None, Some e3 => (inl e3, write_line (write_line w3 done) (failed e3))
    | Some cause, None => (inl cause, write_line w3 (failed cause))
    | Some cause, Some e3 => (inl e3, write_line w3 (failed e3))
    end.
Proof.
  intros Hcfg Hfile Hconn.
  unfold rollback, catch. rewrite withPgClient_configured by exact Hcfg.
  unfold finally, bind, connect, end_, query, lift_outside, readFileSync, ret,
    console_write, throw, write_line.
  rewrite Hfile. simpl. rewrite Hconn. simpl.
  destruct (client_query text o1) as [[cause|] o2]; simpl;
    destruct (client_end o2) as [[e3|] o3]; reflexivity.
Qed.

Lemma catalog_downPath_truthy (dir : string) (entries : list string)
    (props : SchemaVersionState.t) (p : string) :
  optional_downPath (find_migration props (catalog dir entries)) = Some p ->
  truthy p = true.
Proof.
  unfold find_migration.
  destruct (find _ (catalog dir entries)) as [m|] eqn:Hfind; simpl; [|discriminate].
  apply find_some in Hfind. destruct Hfind as [Hin _].
  destruct (catalog_entry_from_up_file dir entries m Hin)
    as (d & f & _ & _ & _ & _ & Hd).
  destruct Hd as [->|(g & _ & _ & ->)]; [discriminate|].
  intro H. inversion H. apply path_join_truthy.
Qed.

(** [delete] when the down path it finds holds a file. *)
Lemma delete_resolved (id : string) (props : SchemaVersionState.t)
    (entries : list string) (p text : string) (w : World R) :
  fs env (path_join (__dirname env) "sql") = Some (Directory entries) ->
  optional_downPath
    (find_migration props (catalog (path_join (__dirname env) "sql") entries)) = Some p ->
  fs env p = Some (File text) ->
  delete env id props w
  = rollback env props p
      (write_line w (load_line (path_join (__dirname env) "sql")
                       (catalog (path_join (__dirname env) "sql") entries))).
Proof.
  intros Hdir Hp Hfile. rewrite (delete_on_directory id props entries w Hdir).
  rewrite Hp. rewrite (catalog_downPath_truthy _ _ _ _ Hp).
  unfold existsSync. rewrite Hfile. reflexivity.
Qed.

(** [delete] when it finds no down path, or one that does not exist. *)
Lemma delete_unresolved (id : string) (props : SchemaVersionState.t)
    (entries : list string) (w : World R) :
  fs env (path_join (__dirname env) "sql") = Some (Directory entries) ->
  match optional_downPath
          (find_migration props (catalog (path_join (__dirname env) "sql") entries)) with
  | Some p => fs env p = None
  | None => True
  end ->
  delete env id props w
  = (inr tt,
     write_line
       (write_line w (load_line (path_join (__dirname env) "sql")
                        (catalog (path_join (__dirname env) "sql") entries)))
       (WARN, "No down migration found for " ++ SchemaVersionState.version props
                ++ ", skipping rollback")).
Proof.
  intros Hdir Hp. rewrite (delete_on_directory id props entries w Hdir).
  destruct (optional_downPath _) as [p|]; [|reflexivity].
  unfold existsSync. rewrite Hp. rewrite orb_true_r. reflexivity.
Qed.

End DeleteFacts.

(** C7, where the program departs from it.  The directory holds the
    migrations [a] and [b] of version 001, and only [b] has a down
    script.  The record of [b] was applied with that down script and
    stores its checksum; the catalog has the entry of [b], of the
    record's version, with a down path that exists.  A down script is
    resolvable for the record, and yet [delete] hands nothing to the
    server, writes the warning that no down migration was found for
    001 and returns without error: [find] stops at the entry of [a],
    the first of that version, which has no down path. *)
Lemma delete_skips_down_script_of_later_entry :
  let listing := ["V001__a.up.sql"; "V001__b.down.sql"; "V001__b.up.sql"] in
  let props := example_state "001" "b" (Some (sha256 "DROP TABLE b;")) in
  (exists m, In m (catalog "/app/sql" listing)
             /\ MigrationFile.version m = SchemaVersionState.version props
             /\ MigrationFile.downPath m = Some "/app/sql/V001__b.down.sql"
             /\ fs duplicate_env "/app/sql/V001__b.down.sql" = Some (File "DROP TABLE b;"))
  /\ delete duplicate_env "app-001-1700000000000" props (example_world [])
     = (inr tt,
        {| outside := outside (example_world []);
           queries := [];
           console := [ (LOG, "Found 2 migrations to process");
                        (WARN, "No down migration found for 001, skipping rollback") ] |}).
Proof.
  split.
  - exists (MigrationFile.make "001" "b" "/app/sql/V001__b.up.sql"
              (Some "/app/sql/V001__b.down.sql")).
    split; [right; left; reflexivity|]. repeat split; reflexivity.
  - vm_compute. reflexivity.
Qed.

(** With two migrations of one version that both have a down script,
    [delete] of the record of the second runs the down script of the
    first: the table of [a] is dropped when [b] is deleted, and the
    console reports the rollback under the name of [b]. *)
Lemma delete_runs_down_script_of_other_migration :
  let props := example_state "001" "b" (Some (sha256 "DROP TABLE b;")) in
  map MigrationFile.name
      (catalog "/app/sql" ["V001__a.down.sql"; "V001__a.up.sql";
                           "V001__b.down.sql"; "V001__b.up.sql"])
  = ["a"; "b"]
  /\ fs shared_version_env "/app/sql/V001__b.down.sql" = Some (File "DROP TABLE b;")
  /\ delete shared_version_env "app-001-1700000000000" props (example_world [])
     = (inr tt,
        {| outside := outside (example_world []);
           queries := ["DROP TABLE a;"];
           console := [ (LOG, "Found 2 migrations to process");
                        (LOG, "Rolled back migration: 001 - b") ] |}).
Proof.
  split; [reflexivity|]. split; [reflexivity|]. vm_compute. reflexivity.
Qed.

(** What [delete] does, case by case.  With the migrations directory
    listed, [delete] looks at the first catalog entry that has the
    record's version.  When there is none, or it has no down path, or its down
    path does not exist, [delete] returns without error, hands no
    statement to the server, leaves the server as it was and writes
    the warning; so it does when no catalog entry of that version has
    a down path.  When the down path of that entry holds a file and
    the client connects, [delete] hands the text of the file to the
    server as one statement; if the server rejects it [delete] throws
    (the error of the statement itself when closing succeeds), and if
    the statement and the closing succeed [delete] returns. *)
Theorem delete_rollback_behaviour
    {R : Type} {RT : Runtime R} (env : Env) (id : string) (props : SchemaVersionState.t)
    (entries : list string) (w : World R) :
  let dir := path_join (__dirname env) "sql" in
  let found := optional_downPath (find_migration props (catalog dir entries)) in
  fs env dir = Some (Directory entries) ->
  ((found = None \/ exists p, found = Some p /\ fs env p = None) ->
   delete env id props w
   = (inr tt,
      {| outside := outside w;
         queries := queries w;
         console := List.app (console w)
                     [load_line dir (catalog dir entries);
                      (WARN, "No down migration found for "
                               ++ SchemaVersionState.version props
                               ++ ", skipping rollback")] |}))
  /\ ((forall m, In m (catalog dir entries) ->
         MigrationFile.version m = SchemaVersionState.version props ->
         MigrationFile.downPath m = None) ->
      found = None)
  /\ (forall p text o1,
        found = Some p ->
        fs env p = Some (File text) ->
        configured env ->
        client_connect (outside w) = (None, o1) ->
        exists r w',
          delete env id props w = (r, w')
          /\ queries w' = (queries w ++ [text])%list
          /\ (forall cause o2,
                client_query text o1 = (Some cause, o2) ->
                exists e, r = inl e
                          /\ (forall o3, client_end o2 = (None, o3) -> e = cause))
          /\ (forall o2 o3,
                client_query text o1 = (None, o2) ->
                client_end o2 = (None, o3) ->
                r = inr tt /\ outside w' = o3)).
Proof.
  intros dir found Hdir. subst dir found. split; [|split].
  - intros Hno. rewrite (delete_unresolved env id props entries w Hdir).
    + unfold write_line. simpl. rewrite <- app_assoc. reflexivity.
    + destruct Hno as [->|(p & -> & Hp)]; [exact I|exact Hp].
  - intros Hall. unfold find_migration.
    destruct (find _ (catalog _ entries)) as [m|] eqn:Hfind; simpl; [|reflexivity].
    apply find_some in Hfind. destruct Hfind as [Hin Hv].
    apply String.eqb_eq in Hv. exact (Hall m Hin Hv).
  - intros p text o1 Hp Hfile Hcfg Hconn.
    rewrite (delete_resolved env id props entries p text w Hdir Hp Hfile).
    rewrite (rollback_run env props p text
               (write_line w (load_line (path_join (__dirname env) "sql")
                                (catalog (path_join (__dirname env) "sql") entries)))
               o1 Hcfg Hfile Hconn).
    destruct (client_query text o1) as [[cause|] o2] eqn:Hq;
      destruct (client_end o2) as [[e3|] o3] eqn:He; simpl;
      eexists; eexists; (split; [reflexivity|]); (split; [reflexivity|]); split.
    + intros c o2' H. inversion H; subst. exists e3. split; [reflexivity|].
      intros o3' H'. rewrite He in H'. discriminate.
    + intros o2' o3' H. discriminate.
    + intros c o2' H. inversion H; subst. exists c. split; [reflexivity|]. reflexivity.
    + intros o2' o3' H. discriminate.
    + intros c o2' H. discriminate.
    + intros o2' o3' H H'. inversion H; subst. rewrite He in H'. discriminate.
    + intros c o2' H. discriminate.
    + intros o2' o3' H H'. inversion H; subst. rewrite He in H'. inversion H'. auto.
Qed.

Lemma delete_rollback_behaviour_witness :
  delete example_env "app-002-1700000000000" (example_state "002" "y" None) (example_world [])
  = (inr tt,
     {| outside := outside (example_world []);
        queries := [];
        console := [ (LOG, "Found 3 migrations to process");
                     (WARN, "No down migration found for 002, skipping rollback") ] |})
  /\ exists r w',
       delete example_env "app-001-1700000000000" (example_state "001" "init" None)
         (example_world [])
       = (r, w')
       /\ queries w' = ["DROP TABLE a;"]
       /\ r = inr tt.
Proof.
  split.
  - refine (proj1 (delete_rollback_behaviour example_env "app-002-1700000000000"
                     (example_state "002" "y" None)
                     ["V002__y.up.sql"; "V001__init.down.sql"; "V003__x.up.sql";
                      "V001__init.up.sql"; "V002__y.down.sql"]
                     (example_world []) eq_refl) _).
    right. exists "/app/sql/V002__y.down.sql". split; reflexivity.
  - destruct (proj2 (proj2 (delete_rollback_behaviour (RT := scripted_runtime) example_env
                       "app-001-1700000000000" (example_state "001" "init" None)
                       ["V002__y.up.sql"; "V001__init.down.sql"; "V003__x.up.sql";
                        "V001__init.up.sql"; "V002__y.down.sql"]
                       (example_world []) eq_refl))
                "/app/sql/V001__init.down.sql" "DROP TABLE a;"
                (outside (example_world [])))
      as (r & w' & Hrun & Hq & _ & Hok).
    + reflexivity.
    + reflexivity.
    + exact example_configured.
    + reflexivity.
    + exists r, w'. split; [exact Hrun|]. split; [exact Hq|].
      exact (proj1 (Hok _ _ eq_refl eq_refl)).
Defined.

(** C9. [delete] depends on the stored record through its version (and
    its name, for the console) only: records of the same version and
    name give the same run.  It takes the down path of the first entry
    of the re-built catalog that has the record's version and hands the
    text that file holds now to the server, whatever the stored
    [downSqlChecksum]: also when that checksum is not the fingerprint
    of the text, the statement is sent and [delete] returns once the
    server accepts it. *)
Theorem delete_runs_down_script_unverified
    {R : Type} {RT : Runtime R} (env : Env) (id : string) (props : SchemaVersionState.t)
    (entries : list string) (w : World R) :
  let dir := path_join (__dirname env) "sql" in
  fs env dir = Some (Directory entries) ->
  (forall id' props',
     SchemaVersionState.version props' = SchemaVersionState.version props ->
     SchemaVersionState.name props' = SchemaVersionState.name props ->
     delete env id' props' w = delete env id props w)
  /\ (forall p text c o1,
        optional_downPath (find_migration props (catalog dir entries)) = Some p ->
        fs env p = Some (File text) ->
        SchemaVersionState.downSqlChecksum props = Some c ->
        c <> sha256 text ->
        configured env ->
        client_connect (outside w) = (None, o1) ->
        (exists m, find_migration props (catalog dir entries) = Some m
                   /\ In m (catalog dir entries)
                   /\ MigrationFile.version m = SchemaVersionState.version props
                   /\ MigrationFile.downPath m = Some p)
        /\ exists r w',
             delete env id props w = (r, w')
             /\ queries w' = (queries w ++ [text])%list
             /\ (forall o2 o3,
                   client_query text o1 = (None, o2) ->
                   client_end o2 = (None, o3) ->
                   r = inr tt)).
Proof.
  intros dir Hdir. subst dir. split.
  - intros id' props' Hv Hn.
    unfold delete, skip_rollback, rollback. rewrite Hv, Hn. reflexivity.
  - intros p text c o1 Hp Hfile _ _ Hcfg Hconn. split.
    + unfold find_migration in *.
      destruct (find _ (catalog _ entries)) as [m|] eqn:Hfind; simpl in Hp; [|discriminate].
      exists m. apply find_some in Hfind. destruct Hfind as [Hin Hv].
      apply String.eqb_eq in Hv. auto.
    + rewrite (delete_resolved env id props entries p text w Hdir Hp Hfile).
      rewrite (rollback_run env props p text
                 (write_line w (load_line (path_join (__dirname env) "sql")
                                  (catalog (path_join (__dirname env) "sql") entries)))
                 o1 Hcfg Hfile Hconn).
      destruct (client_query text o1) as [[cause|] o2] eqn:Hq;
        destruct (client_end o2) as [[e3|] o3] eqn:He; simpl;
        eexists; eexists; (split; [reflexivity|]); (split; [reflexivity|]);
        intros o2' o3' H H'; inversion H; subst; rewrite He in H'; inversion H'; reflexivity.
Qed.

Lemma delete_runs_down_script_unverified_witness :
  let props := example_state "001" "init"
                 (Some "0000000000000000000000000000000000000000000000000000000000000000") in
  let listing := ["V002__y.up.sql"; "V001__init.down.sql"; "V003__x.up.sql";
                  "V001__init.up.sql"; "V002__y.down.sql"] in
  (exists m, find_migration props (catalog "/app/sql" listing) = Some m
             /\ In m (catalog "/app/sql" listing)
             /\ MigrationFile.version m = "001"
             /\ MigrationFile.downPath m = Some "/app/sql/V001__init.down.sql")
  /\ exists r w',
       delete example_env "app-001-1700000000000" props (example_world []) = (r, w')
       /\ queries w' = ["DROP TABLE a;"]
       /\ (forall o2 o3,
             client_query "DROP TABLE a;" (outside (example_world [])) = (None, o2) ->
             client_end o2 = (None, o3) ->
             r = inr tt).
Proof.
  intros props listing.
  refine (proj2 (delete_runs_down_script_unverified (RT := scripted_runtime) example_env
                   "app-001-1700000000000" props listing (example_world []) eq_refl)
            "/app/sql/V001__init.down.sql" "DROP TABLE a;"
            "0000000000000000000000000000000000000000000000000000000000000000"
            (outside (example_world [])) _ _ _ _ example_configured _).
  - reflexivity.
  - reflexivity.
  - reflexivity.
  - vm_compute. discriminate.
  - reflexivity.
Defined.

(** * Further facts: the client and [create] *)

(** X1. When one of the five configuration keys has no value,
    [withPgClient] throws before it connects and without running its
    callback: the state is left as it was.  [create] then throws its
    wrapped error, having sent no statement. *)
Theorem withPgClient_requires_configuration
    {R : Type} {RT : Runtime R} (env : Env) (w : World R) :
  missing_key env ->
  (forall (T : Type) (callback : M R T),
     exists e, withPgClient env callback w = (inl e, w))
  /\ (forall inputs,
        exists cause,
          create env inputs w
          = (inl (new_Error ("Failed to apply migration " ++ SchemaVersionArgs.version inputs
                               ++ ": " ++ render cause)),
             write_line w (ERROR, "Migration error details:"))).
Proof.
  intros Hmiss.
  assert (H : forall (T : Type) (callback : M R T),
             exists e, withPgClient env callback w = (inl e, w)).
  { intros T callback. unfold withPgClient, require, requireNumber, bind, throw, ret.
    destruct (get (config env) "host") eqn:E1; [|eauto].
    destruct (getNumber (config env) "port") eqn:E2;
      [|destruct (get (config env) "port"); eauto].
    destruct (get (config env) "database") eqn:E3; [|eauto].
    destruct (get (config env) "username") eqn:E4; [|eauto].
    destruct (get (config env) "password") eqn:E5; [|eauto].
    exfalso. destruct Hmiss as [E|[E|[E|[E|E]]]]; congruence. }
  split; [exact H|].
  intros inputs. unfold create, catch.
  match goal with |- context [withPgClient env ?cb w] => destruct (H _ cb) as (e & ->) end.
  exists e. reflexivity.
Qed.

Lemma withPgClient_requires_configuration_witness :
  exists cause,
    create partial_env example_inputs (example_world [])
    = (inl (new_Error ("Failed to apply migration 001: " ++ render cause)),
       write_line (example_world []) (ERROR, "Migration error details:")).
Proof.
  refine (proj2 (withPgClient_requires_configuration partial_env (example_world []) _)
            example_inputs).
  right. right. right. right. reflexivity.
Defined.

(** X2. When the client fails to connect, [withPgClient] does not run
    its callback (nothing is sent, nothing is written), still closes
    the client, and throws the error of the connection, or that of the
    closing when closing fails too. *)
Theorem withPgClient_connect_failure
    {R : Type} {RT : Runtime R} (env : Env) (T : Type) (callback : M R T)
    (w : World R) (e : exn) (o1 : R) :
  configured env ->
  client_connect (outside w) = (Some e, o1) ->
  withPgClient env callback w
  = (inl match fst (client_end o1) with Some e' => e' | None => e end,
     {| outside := snd (client_end o1); queries := queries w; console := console w |}).
Proof.
  intros Hcfg Hconn. rewrite withPgClient_configured by exact Hcfg.
  unfold finally, bind, connect, end_, lift_outside. rewrite Hconn. simpl.
  destruct (client_end o1) as [[e'|] o2]; reflexivity.
Qed.

Lemma withPgClient_connect_failure_witness :
  withPgClient example_env (query "SELECT 1") (faulty_world (Some connection_refused) None)
  = (inl connection_refused, faulty_world (Some connection_refused) None).
Proof.
  exact (withPgClient_connect_failure example_env unit (query "SELECT 1")
           (faulty_world (Some connection_refused) None) connection_refused
           (outside (faulty_world (Some connection_refused) None))
           example_configured eq_refl).
Defined.

(** X3. Whatever happens, [create] hands the server at most one
    statement, and that statement is the up script: the down script is
    never sent by [create]. *)
Theorem create_sends_only_up_script
    {R : Type} {RT : Runtime R} (env : Env) (inputs : SchemaVersionArgs.t) (w : World R) :
  queries (snd (create env inputs w)) = queries w
  \/ queries (snd (create env inputs w))
     = (queries w ++ [SchemaVersionArgs.upSql inputs])%list.
Proof.
  unfold create, catch, withPgClient, require, requireNumber, finally, bind, ret, throw,
    console_write, now, connect, end_, query, lift_outside.
  destruct (get (config env) "host"); [|left; reflexivity].
  destruct (getNumber (config env) "port");
    [|destruct (get (config env) "port"); left; reflexivity].
  destruct (get (config env) "database"); [|left; reflexivity].
  destruct (get (config env) "username"); [|left; reflexivity].
  destruct (get (config env) "password"); [|left; reflexivity].
  simpl.
  destruct (client_connect (outside w)) as [[e1|] o1]; simpl.
  - destruct (client_end o1) as [[e2|] o2]; left; reflexivity.
  - destruct (client_query (SchemaVersionArgs.upSql inputs) o1) as [[e2|] o2]; simpl.
    + destruct (client_end o2) as [[e3|] o3]; right; reflexivity.
    + destruct (Date_now o2) as [t1 o3]. simpl.
      destruct (Date_now o3) as [t2 o4]. simpl.
      destruct (client_end o4) as [[e3|] o5]; right; reflexivity.
Qed.

(** X4. When the client connects, the server accepts the up script and
    the client closes, [create] returns the identifier
    [<database>-<version>-<clock>] and the record of the version, the
    name, the two fingerprints and the date; it has sent the up script
    alone and written one line. *)
Theorem create_success
    {R : Type} {RT : Runtime R} (env : Env) (inputs : SchemaVersionArgs.t) (w : World R)
    (o1 o2 o3 o4 o5 : R) (stamp date : N) :
  configured env ->
  client_connect (outside w) = (None, o1) ->
  client_query (SchemaVersionArgs.upSql inputs) o1 = (None, o2) ->
  Date_now o2 = (stamp, o3) ->
  Date_now o3 = (date, o4) ->
  client_end o4 = (None, o5) ->
  create env inputs w
  = (inr {| id := SchemaVersionArgs.database inputs ++ "-"
                  ++ SchemaVersionArgs.version inputs ++ "-" ++ decimal stamp;
            outs := {| SchemaVersionState.version := SchemaVersionArgs.version inputs;
                       SchemaVersionState.name := SchemaVersionArgs.name inputs;
                       SchemaVersionState.upSqlChecksum :=
                         sha256 (SchemaVersionArgs.upSql inputs);
                       SchemaVersionState.downSqlChecksum :=
                         optional_checksum (SchemaVersionArgs.downSql inputs);
                       SchemaVersionState.appliedAt := toISOString date |} |},
     {| outside := o5;
        queries := (queries w ++ [SchemaVersionArgs.upSql inputs])%list;
        console := List.app (console w)
                     [(LOG, "Applied migration: " ++ SchemaVersionArgs.version inputs
                              ++ " - " ++ SchemaVersionArgs.name inputs)] |}).
Proof.
  intros Hcfg Hconn Hq Ht1 Ht2 Hend.
  unfold create, catch. rewrite withPgClient_configured by exact Hcfg.
  unfold finally, bind, ret, console_write, now, connect, end_, query, lift_outside.
  simpl. rewrite Hconn. simpl. rewrite Hq. simpl. rewrite Ht1. simpl. rewrite Ht2. simpl.
  rewrite Hend. reflexivity.
Qed.

Lemma create_success_witness :
  create example_env example_inputs (example_world [])
  = (inr {| id := "app-001-1700000000000";
            outs := {| SchemaVersionState.version := "001";
                       SchemaVersionState.name := "init";
                       SchemaVersionState.upSqlChecksum := sha256 "CREATE TABLE a (id int);";
                       SchemaVersionState.downSqlChecksum :=
                         optional_checksum (Some "DROP TABLE a;");
                       SchemaVersionState.appliedAt := toISOString 1700000000001%N |} |},
     {| outside := {| rejected := []; clock := 1700000000002 |};
        queries := ["CREATE TABLE a (id int);"];
        console := [(LOG, "Applied migration: 001 - init")] |}).
Proof.
  exact (create_success (RT := scripted_runtime) example_env example_inputs (example_world [])
           {| rejected := []; clock := 1700000000000 |}
           {| rejected := []; clock := 1700000000000 |}
           {| rejected := []; clock := 1700000000001 |}
           {| rejected := []; clock := 1700000000002 |}
           {| rejected := []; clock := 1700000000002 |}
           1700000000000%N 1700000000001%N
           example_configured eq_refl eq_refl eq_refl eq_refl eq_refl).
Defined.

(** X5. When the server has accepted the up script and the closing of
    the client then throws, [create] throws its wrapped error and
    returns no record, although the statement has been executed and
    the line "Applied migration" written. *)
Theorem create_fails_when_closing_fails
    {R : Type} {RT : Runtime R} (env : Env) (inputs : SchemaVersionArgs.t) (w : World R)
    (o1 o2 o3 o4 o5 : R) (stamp date : N) (e : exn) :
  configured env ->
  client_connect (outside w) = (None, o1) ->
  client_query (SchemaVersionArgs.upSql inputs) o1 = (None, o2) ->
  Date_now o2 = (stamp, o3) ->
  Date_now o3 = (date, o4) ->
  client_end o4 = (Some e, o5) ->
  create env inputs w
  = (inl (new_Error ("Failed to apply migration " ++ SchemaVersionArgs.version inputs
                       ++ ": " ++ render e)),
     {| outside := o5;
        queries := (queries w ++ [SchemaVersionArgs.upSql inputs])%list;
        console := List.app (console w)
                     [(LOG, "Applied migration: " ++ SchemaVersionArgs.version inputs
                              ++ " - " ++ SchemaVersionArgs.name inputs);
                      (ERROR, "Migration error details:")] |}).
Proof.
  intros Hcfg Hconn Hq Ht1 Ht2 Hend.
  unfold create, catch. rewrite withPgClient_configured by exact Hcfg.
  unfold finally, bind, ret, throw, console_write, now, connect, end_, query, lift_outside.
  simpl. rewrite Hconn. simpl. rewrite Hq. simpl. rewrite Ht1. simpl. rewrite Ht2. simpl.
  rewrite Hend. simpl. rewrite <- app_assoc. reflexivity.
Qed.

Lemma create_fails_when_closing_fails_witness :
  create example_env example_inputs (faulty_world None (Some connection_refused))
  = (inl (new_Error ("Failed to apply migration 001: " ++ render connection_refused)),
     {| outside := outside (faulty_world None (Some connection_refused));
        queries := ["CREATE TABLE a (id int);"];
        console := [(LOG, "Applied migration: 001 - init");
                    (ERROR, "Migration error details:")] |}).
Proof.
  exact (create_fails_when_closing_fails (RT := faulty_runtime) example_env example_inputs
           (faulty_world None (Some connection_refused))
           _ _ _ _ _ 1700000000000%N 1700000000000%N connection_refused
           example_configured eq_refl eq_refl eq_refl eq_refl eq_refl).
Defined.

(** * Further facts: [diff] *)

(** X6. [diff] compares the up checksum first: when it differs, the
    error is the one of the up script, whether or not the down
    checksum differs too. *)
Theorem diff_reports_up_mismatch_first
    (id : string) (olds : SchemaVersionState.t) (news : SchemaVersionArgs.t) :
  SchemaVersionState.upSqlChecksum olds <> sha256 (SchemaVersionArgs.upSql news) ->
  diff id olds news
  = inl (new_Error ("Migration " ++ SchemaVersionArgs.version news
           ++ " UP SQL checksum mismatch. SchemaVersion resources are immutable once applied.")).
Proof.
  intros Hne. unfold diff.
  destruct (String.eqb_spec (SchemaVersionState.upSqlChecksum olds)
              (sha256 (SchemaVersionArgs.upSql news))) as [E|_]; [contradiction|].
  reflexivity.
Qed.

Lemma diff_reports_up_mismatch_first_witness :
  diff "app-001-1700000000000"
    (example_state "001" "init" (Some "not the fingerprint of the down script"))
    example_inputs
  = inl (new_Error
           "Migration 001 UP SQL checksum mismatch. SchemaVersion resources are immutable once applied.").
Proof.
  refine (diff_reports_up_mismatch_first "app-001-1700000000000"
            (example_state "001" "init" (Some "not the fingerprint of the down script"))
            example_inputs _).
  vm_compute. discriminate.
Defined.

(** X7. [diff] looks at the two stored checksums and the two proposed
    texts, and at the proposed version for its message, and at nothing
    else: the identifier, the stored version, name and date, and the
    proposed name and database do not change its answer.  A proposal
    under another name or for another database is not detected. *)
Theorem diff_depends_on_checksums_only
    (id id' : string) (olds olds' : SchemaVersionState.t) (news news' : SchemaVersionArgs.t) :
  SchemaVersionState.upSqlChecksum olds = SchemaVersionState.upSqlChecksum olds' ->
  SchemaVersionState.downSqlChecksum olds = SchemaVersionState.downSqlChecksum olds' ->
  SchemaVersionArgs.upSql news = SchemaVersionArgs.upSql news' ->
  SchemaVersionArgs.downSql news = SchemaVersionArgs.downSql news' ->
  SchemaVersionArgs.version news = SchemaVersionArgs.version news' ->
  diff id olds news = diff id' olds' news'.
Proof.
  intros Hu Hd Hup Hdown Hv. unfold diff. rewrite Hu, Hd, Hup, Hdown, Hv. reflexivity.
Qed.

Lemma diff_depends_on_checksums_only_witness :
  diff "app-001-1700000000000"
    (SchemaVersionState.make "001" "init" "stored up" (Some "stored down") "1700000000001")
    (SchemaVersionArgs.make "001" "init" "CREATE TABLE a (id int);" None "app")
  = diff "other-identifier"
      (SchemaVersionState.make "7" "renamed" "stored up" (Some "stored down") "")
      (SchemaVersionArgs.make "001" "another-name" "CREATE TABLE a (id int);" None
         "another-database").
Proof.
  exact (diff_depends_on_checksums_only "app-001-1700000000000" "other-identifier"
           (SchemaVersionState.make "001" "init" "stored up" (Some "stored down")
              "1700000000001")
           (SchemaVersionState.make "7" "renamed" "stored up" (Some "stored down") "")
           (SchemaVersionArgs.make "001" "init" "CREATE TABLE a (id int);" None "app")
           (SchemaVersionArgs.make "001" "another-name" "CREATE TABLE a (id int);" None
              "another-database")
           eq_refl eq_refl eq_refl eq_refl eq_refl).
Defined.

(** * Further facts: the migrations directory and [delete] *)

(** X8. Without the migrations directory, discovery throws "Migrations
    directory not found" with the path and changes nothing; so do
    [delete], before it looks at the record or connects, and the body
    of the module.  When the path is that of a file, they throw too. *)
Theorem discovery_requires_directory
    {R : Type} {RT : Runtime R} (env : Env) (w : World R) :
  let dir := path_join (__dirname env) "sql" in
  (forall p, fs env p = None ->
     loadMigrationFiles env p w
     = (inl (new_Error ("Migrations directory not found: " ++ p)), w))
  /\ (forall p text, fs env p = Some (File text) ->
        exists e, loadMigrationFiles env p w = (inl e, w))
  /\ (fs env dir = None ->
      (forall id props,
         delete env id props w
         = (inl (new_Error ("Migrations directory not found: " ++ dir)), w))
      /\ main env w = (inl (new_Error ("Migrations directory not found: " ++ dir)), w)).
Proof.
  intros dir.
  assert (Hnone : forall p, fs env p = None ->
            loadMigrationFiles env p w
            = (inl (new_Error ("Migrations directory not found: " ++ p)), w)).
  { intros p Hp. unfold loadMigrationFiles, existsSync. rewrite Hp. reflexivity. }
  split; [exact Hnone|]. split.
  - intros p text Hp. unfold loadMigrationFiles, existsSync, readdirSync, bind, throw.
    rewrite Hp. simpl. eauto.
  - intros Hdir. split.
    + intros id props. unfold delete, new_FileMigrationManager, bind.
      fold dir. rewrite (Hnone dir Hdir). reflexivity.
    + unfold main, new_FileMigrationManager, bind.
      fold dir. rewrite (Hnone dir Hdir). reflexivity.
Qed.

Lemma discovery_requires_directory_witness :
  (forall id props,
     delete bare_env id props (example_world [])
     = (inl (new_Error ("Migrations directory not found: "
                          ++ path_join (__dirname bare_env) "sql")),
        example_world []))
  /\ main bare_env (example_world [])
     = (inl (new_Error ("Migrations directory not found: "
                          ++ path_join (__dirname bare_env) "sql")),
        example_world []).
Proof.
  exact (proj2 (proj2 (discovery_requires_directory bare_env (example_world [])))
           (eq_refl : fs bare_env (path_join (__dirname bare_env) "sql") = None)).
Defined.

Lemma rollback_sends_only_down_script
    {R : Type} {RT : Runtime R} (env : Env) (props : SchemaVersionState.t) (p : string)
    (w : World R) :
  queries (snd (rollback env props p w)) = queries w
  \/ exists text, fs env p = Some (File text)
                  /\ queries (snd (rollback env props p w)) = (queries w ++ [text])%list.
Proof.
  unfold rollback, catch, withPgClient, require, requireNumber, finally, bind, ret, throw,
    console_write, connect, end_, query, lift_outside, readFileSync.
  destruct (get (config env) "host"); [|left; reflexivity].
  destruct (getNumber (config env) "port");
    [|destruct (get (config env) "port"); left; reflexivity].
  destruct (get (config env) "database"); [|left; reflexivity].
  destruct (get (config env) "username"); [|left; reflexivity].
  destruct (get (config env) "password"); [|left; reflexivity].
  cbn beta iota.
  destruct (client_connect (outside w)) as [[e1|] o1]; cbn.
  - destruct (client_end o1) as [[e2|] o2]; left; reflexivity.
  - destruct (fs env p) as [[text|l]|]; cbn.
    + right. exists text. split; [reflexivity|].
      destruct (client_query text o1) as [[e2|] o2]; cbn;
        destruct (client_end o2) as [[e3|] o3]; reflexivity.
    + destruct (client_end o1) as [[e2|] o2]; left; reflexivity.
    + destruct (client_end o1) as [[e2|] o2]; left; reflexivity.
Qed.

(** X9. Whatever happens, [delete] hands the server at most one
    statement, and that statement is the text of the down file of the
    first catalog entry with the record's version: never an up script,
    and never anything for a record without such a file. *)
Theorem delete_sends_only_down_script
    {R : Type} {RT : Runtime R} (env : Env) (id : string) (props : SchemaVersionState.t)
    (w : World R) :
  queries (snd (delete env id props w)) = queries w
  \/ exists entries p text,
       fs env (path_join (__dirname env) "sql") = Some (Directory entries)
       /\ optional_downPath
            (find_migration props (catalog (path_join (__dirname env) "sql") entries))
          = Some p
       /\ fs env p = Some (File text)
       /\ queries (snd (delete env id props w)) = (queries w ++ [text])%list.
Proof.
  destruct (fs env (path_join (__dirname env) "sql")) as [[text|entries]|] eqn:Hdir.
  - left. unfold delete, new_FileMigrationManager, loadMigrationFiles, existsSync,
      readdirSync, bind, throw. rewrite Hdir. reflexivity.
  - rewrite (delete_on_directory env id props entries w Hdir).
    set (w1 := write_line w (load_line (path_join (__dirname env) "sql")
                               (catalog (path_join (__dirname env) "sql") entries))).
    assert (Hq : queries w1 = queries w) by reflexivity.
    destruct (optional_downPath _) as [p|] eqn:Hp; [|left; exact Hq].
    destruct (negb (truthy p) || negb (existsSync env p)); [left; exact Hq|].
    destruct (rollback_sends_only_down_script env props p w1) as [H|(text & Hfile & H)].
    + left. rewrite H. exact Hq.
    + right. exists entries, p, text. rewrite H, Hq. auto.
  - left. unfold delete, new_FileMigrationManager, loadMigrationFiles, existsSync, bind, throw.
    rewrite Hdir. reflexivity.
Qed.

(** * Further facts: discovery *)

Lemma map_modify_In_forward (key : string) (g : MigrationFile.t -> MigrationFile.t)
    (m : MigrationMap) (k : string) (v : MigrationFile.t) :
  In (k, v) m ->
  In (k, v) (map_modify key g m) \/ (k = key /\ In (k, g v) (map_modify key g m)).
Proof.
  induction m as [|[k0 v0] m IH]; simpl; [contradiction|].
  destruct (String.eqb_spec k0 key) as [->|Hne]; simpl.
  - intros [E|H]; [inversion E; subst; right; auto | left; auto].
  - intros [E|H]; [left; auto|].
    destruct (IH H) as [H'|[-> H']]; [left; auto | right; auto].
Qed.

Lemma map_modify_modifies (key : string) (g : MigrationFile.t -> MigrationFile.t)
    (m : MigrationMap) :
  In key (map fst m) -> exists v, In (key, g v) (map_modify key g m).
Proof.
  induction m as [|[k0 v0] m IH]; simpl; [contradiction|].
  destruct (String.eqb_spec k0 key) as [->|Hne]; simpl.
  - intros _. exists v0. auto.
  - intros [E|H]; [contradiction|]. destruct (IH H) as (v & Hv). exists v. auto.
Qed.

(** Reading a file that matches records its path in the entry of its key. *)
Lemma load_file_records (dir : string) (m : MigrationMap) (f v d : string) (dirn : direction) :
  match_migration f = Some (v, d, dirn) ->
  exists e, In ("V" ++ v ++ "__" ++ d, e) (load_file dir m f)
            /\ has_path dirn (path_join dir f) e.
Proof.
  intros Hm. unfold load_file. rewrite Hm.
  set (key := "V" ++ v ++ "__" ++ d).
  set (fresh := {| MigrationFile.version := v;
                   MigrationFile.name := replace_underscores d;
                   MigrationFile.upPath := "";
                   MigrationFile.downPath := None |}).
  set (m1 := if map_has key m then m else map_set key fresh m).
  assert (Hkey : In key (map fst m1)).
  { unfold m1. destruct (map_has key m) eqn:Hhas.
    - apply map_has_In. exact Hhas.
    - unfold map_set. rewrite map_app. apply in_or_app. right. left. reflexivity. }
  destruct dirn.
  - destruct (map_modify_modifies key (MigrationFile.set_upPath (path_join dir f)) m1 Hkey)
      as (e & He).
    eexists. split; [exact He|reflexivity].
  - destruct (map_modify_modifies key (MigrationFile.set_downPath (path_join dir f)) m1 Hkey)
      as (e & He).
    eexists. split; [exact He|reflexivity].
Qed.

(** A path once recorded stays, whatever files are read next. *)
Lemma load_file_keeps (dir : string) (m : MigrationMap) (f v d : string) (dirn : direction)
    (g : string) :
  match_migration f = Some (v, d, dirn) ->
  (exists e, In ("V" ++ v ++ "__" ++ d, e) m /\ has_path dirn (path_join dir f) e) ->
  exists e, In ("V" ++ v ++ "__" ++ d, e) (load_file dir m g)
            /\ has_path dirn (path_join dir f) e.
Proof.
  intros Hm (e & He & Hp). unfold load_file.
  destruct (match_migration g) as [[[v' d'] dirn']|] eqn:Hg; [|eauto].
  set (key' := "V" ++ v' ++ "__" ++ d').
  set (fresh := {| MigrationFile.version := v';
                   MigrationFile.name := replace_underscores d';
                   MigrationFile.upPath := "";
                   MigrationFile.downPath := None |}).
  set (m1 := if map_has key' m then m else map_set key' fresh m).
  assert (He1 : In ("V" ++ v ++ "__" ++ d, e) m1).
  { unfold m1. destruct (map_has key' m); [exact He|].
    unfold map_set. apply in_or_app. left. exact He. }
  destruct (match_migration_sound _ _ _ _ Hm) as (Hf & Hdig & _ & _).
  destruct (match_migration_sound _ _ _ _ Hg) as (Hgf & Hdig' & _ & _).
  assert (Hsame : "V" ++ v ++ "__" ++ d = key' -> dirn' = dirn -> g = f).
  { intros Hk Hd. unfold key' in Hk.
    destruct (migration_key_inj _ _ _ _ Hdig Hdig' Hk) as [-> ->].
    subst dirn'. rewrite Hf, Hgf. reflexivity. }
  destruct dirn'.
  - destruct (map_modify_In_forward key' (MigrationFile.set_upPath (path_join dir g))
                m1 _ _ He1) as [H|[Hk H]]; [eauto|].
    eexists. split; [exact H|].
    destruct dirn; simpl in *; [|exact Hp].
    rewrite (Hsame Hk eq_refl). reflexivity.
  - destruct (map_modify_In_forward key' (MigrationFile.set_downPath (path_join dir g))
                m1 _ _ He1) as [H|[Hk H]]; [eauto|].
    eexists. split; [exact H|].
    destruct dirn; simpl in *; [exact Hp|].
    rewrite (Hsame Hk eq_refl). reflexivity.
Qed.

Lemma fold_load_file_keeps (dir : string) (files : list string) (f v d : string)
    (dirn : direction) :
  match_migration f = Some (v, d, dirn) ->
  forall m,
    (exists e, In ("V" ++ v ++ "__" ++ d, e) m /\ has_path dirn (path_join dir f) e) ->
    exists e, In ("V" ++ v ++ "__" ++ d, e) (fold_left (load_file dir) files m)
              /\ has_path dirn (path_join dir f) e.
Proof.
  intros Hm. induction files as [|g files IH]; intros m H; simpl; [exact H|].
  apply IH. eapply load_file_keeps; eassumption.
Qed.

Lemma fold_load_file_records (dir : string) (files : list string) (f v d : string)
    (dirn : direction) :
  match_migration f = Some (v, d, dirn) ->
  In f files ->
  forall m,
    exists e, In ("V" ++ v ++ "__" ++ d, e) (fold_left (load_file dir) files m)
              /\ has_path dirn (path_join dir f) e.
Proof.
  intros Hm. induction files as [|g files IH]; intros Hin m; simpl; [contradiction|].
  destruct Hin as [->|Hin].
  - eapply fold_load_file_keeps; [exact Hm|]. apply load_file_records. exact Hm.
  - apply IH. exact Hin.
Qed.

Lemma NoDup_fst_unique (m : MigrationMap) (k : string) (a b : MigrationFile.t) :
  NoDup (map fst m) -> In (k, a) m -> In (k, b) m -> a = b.
Proof.
  induction m as [|[k0 v0] m IH]; simpl; [contradiction|].
  intros Hnd Ha Hb. inversion Hnd as [|? ? Hnot Hnd']; subst.
  destruct Ha as [Ea|Ha], Hb as [Eb|Hb].
  - congruence.
  - inversion Ea; subst. exfalso. apply Hnot. apply in_map_iff. exists (k, b). auto.
  - inversion Eb; subst. exfalso. apply Hnot. apply in_map_iff. exists (k, a). auto.
  - apply IH; assumption.
Qed.

(** The entry that discovery makes of a listed up file. *)
Lemma catalog_entry_of_up_file (dir : string) (entries : list string)
    (f version description : string) :
  In f entries ->
  match_migration f = Some (version, description, up) ->
  exists m,
    In m (catalog dir entries)
    /\ MigrationFile.version m = version
    /\ MigrationFile.name m = replace_underscores description
    /\ MigrationFile.upPath m = path_join dir f.
Proof.
  intros Hin Hm.
  assert (Hsorted : In f (Array_sort compare_code_units entries)).
  { apply Array_sort_In. exact Hin. }
  destruct (fold_load_file_records dir (Array_sort compare_code_units entries)
              f version description up Hm Hsorted []) as (m & Hkm & Hup).
  simpl in Hup.
  destruct (catalog_map_invariant dir entries) as [_ Hall].
  destruct (Hall _ Hkm) as (d' & Hkey & Hdig & Hname & _ & _). simpl in *.
  destruct (match_migration_sound _ _ _ _ Hm) as (_ & Hdigv & _ & _).
  destruct (migration_key_inj _ _ _ _ Hdigv Hdig Hkey) as [Hv Hd]. subst d'.
  exists m. split.
  - apply catalog_In. split; [rewrite Hup; apply path_join_truthy|].
    exists ("V" ++ version ++ "__" ++ description). exact Hkm.
  - split; [symmetry; exact Hv|]. split; [exact Hname|exact Hup].
Qed.

(** C2, as the program has it.  The catalog has one entry for each pair
    of a version and a description: every entry has the up path
    [V<version>__<description>.up.sql] of its own pair, with the name
    made from that description, and no two entries have the same up
    path.  Two listed up files of the same version digits and of
    different descriptions give two different catalog entries of that
    same version, one with the path of each file. *)
Theorem catalog_entries_distinct_by_key (dir : string) (entries : list string) :
  NoDup (map MigrationFile.upPath (catalog dir entries))
  /\ (forall m, In m (catalog dir entries) ->
        exists description,
          MigrationFile.upPath m
          = path_join dir ("V" ++ MigrationFile.version m ++ "__" ++ description ++ ".up.sql")
          /\ MigrationFile.name m = replace_underscores description)
  /\ (forall f1 f2 version d1 d2,
        In f1 entries -> In f2 entries ->
        match_migration f1 = Some (version, d1, up) ->
        match_migration f2 = Some (version, d2, up) ->
        d1 <> d2 ->
        exists m1 m2,
          In m1 (catalog dir entries) /\ In m2 (catalog dir entries)
          /\ m1 <> m2
          /\ MigrationFile.version m1 = version /\ MigrationFile.version m2 = version
          /\ MigrationFile.upPath m1 = path_join dir f1
          /\ MigrationFile.upPath m2 = path_join dir f2).
Proof.
  split; [|split].
  - unfold catalog.
    eapply Permutation_NoDup; [apply Permutation_map, Array_sort_perm|].
    destruct (catalog_map_invariant dir entries) as [Hnd Hall].
    apply NoDup_map_filter_values; [exact Hnd|].
    intros k1 v1 k2 v2 H1 H2 P1 P2 Heq.
    destruct (Hall _ H1) as (d1 & Hk1 & _ & _ & Hu1 & _).
    destruct (Hall _ H2) as (d2 & Hk2 & _ & _ & Hu2 & _). simpl in *.
    destruct Hu1 as [E|(f1 & _ & Hm1 & Hp1)]; [rewrite E in P1; discriminate|].
    destruct Hu2 as [E|(f2 & _ & Hm2 & Hp2)]; [rewrite E in P2; discriminate|].
    rewrite Hp1, Hp2 in Heq. apply path_join_inj in Heq. subst f2.
    rewrite Hm1 in Hm2. inversion Hm2 as [[Hv Hd]].
    rewrite Hk1, Hk2, Hv, Hd. reflexivity.
  - intros m Hin.
    destruct (catalog_entry_from_up_file dir entries m Hin)
      as (d & f & Hname & _ & Hm & Hp & _).
    exists d. split; [|exact Hname].
    apply match_migration_sound in Hm. destruct Hm as (Hf & _). simpl in Hf.
    rewrite Hp, Hf. reflexivity.
  - intros f1 f2 version d1 d2 Hf1 Hf2 Hm1 Hm2 Hne.
    destruct (catalog_entry_of_up_file dir entries f1 version d1 Hf1 Hm1)
      as (m1 & Hin1 & Hv1 & _ & Hp1).
    destruct (catalog_entry_of_up_file dir entries f2 version d2 Hf2 Hm2)
      as (m2 & Hin2 & Hv2 & _ & Hp2).
    exists m1, m2. repeat split; try assumption.
    intros E. subst m2. rewrite Hp1 in Hp2. apply path_join_inj in Hp2. subst f2.
    rewrite Hm1 in Hm2. inversion Hm2. contradiction.
Qed.

Lemma catalog_entries_distinct_by_key_witness :
  exists m1 m2,
    In m1 (catalog "/app/sql" ["V001__a.up.sql"; "V001__b.up.sql"])
    /\ In m2 (catalog "/app/sql" ["V001__a.up.sql"; "V001__b.up.sql"])
    /\ m1 <> m2
    /\ MigrationFile.version m1 = "001" /\ MigrationFile.version m2 = "001"
    /\ MigrationFile.upPath m1 = path_join "/app/sql" "V001__a.up.sql"
    /\ MigrationFile.upPath m2 = path_join "/app/sql" "V001__b.up.sql".
Proof.
  refine (proj2 (proj2 (catalog_entries_distinct_by_key "/app/sql"
                          ["V001__a.up.sql"; "V001__b.up.sql"]))
            "V001__a.up.sql" "V001__b.up.sql" "001" "a" "b" _ _ eq_refl eq_refl _).
  - left. reflexivity.
  - right. left. reflexivity.
  - discriminate.
Defined.

(** X10. Discovery loses no up script.  Every name of the listing that
    matches as an up file has its entry in the catalog, with the
    version of the name, the description with hyphens as name, and
    the path of the file as up path; the down path of that entry is
    the path of the down file of the same version and description when
    the listing has it, and is absent when it has not. *)
Theorem catalog_has_every_up_file
    (dir : string) (entries : list string) (f version description : string) :
  In f entries ->
  match_migration f = Some (version, description, up) ->
  exists m,
    In m (catalog dir entries)
    /\ MigrationFile.version m = version
    /\ MigrationFile.name m = replace_underscores description
    /\ MigrationFile.upPath m = path_join dir f
    /\ (forall g, In g entries ->
                  match_migration g = Some (version, description, down) ->
                  MigrationFile.downPath m = Some (path_join dir g))
    /\ ((forall g, In g entries ->
                   match_migration g <> Some (version, description, down)) ->
        MigrationFile.downPath m = None).
Proof.
  intros Hin Hm.
  set (files := Array_sort compare_code_units entries).
  assert (Hsorted : forall g, In g entries -> In g files).
  { intros g Hg. apply Array_sort_In. exact Hg. }
  destruct (fold_load_file_records dir files f version description up Hm (Hsorted f Hin) [])
    as (m & Hkm & Hup).
  simpl in Hup.
  destruct (catalog_map_invariant dir entries) as [Hnd Hall]. fold files in Hnd, Hall.
  destruct (Hall _ Hkm) as (d' & Hkey & Hdig & Hname & _ & Hdown). simpl in *.
  destruct (match_migration_sound _ _ _ _ Hm) as (_ & Hdigv & _ & _).
  destruct (migration_key_inj _ _ _ _ Hdigv Hdig Hkey) as [Hv Hd]. subst d'.
  exists m. split.
  - apply catalog_In. split; [rewrite Hup; apply path_join_truthy|].
    exists ("V" ++ version ++ "__" ++ description). exact Hkm.
  - split; [symmetry; exact Hv|]. split; [exact Hname|]. split; [exact Hup|]. split.
    + intros g Hg Hmg.
      destruct (fold_load_file_records dir files g version description down Hmg
                  (Hsorted g Hg) []) as (m' & Hkm' & Hp').
      simpl in Hp'. rewrite (NoDup_fst_unique _ _ m m' Hnd Hkm Hkm'). exact Hp'.
    + intros Hnone. destruct Hdown as [H|(g & Hg & Hmg & _)]; [exact H|].
      exfalso. apply (Hnone g Hg). rewrite Hmg, <- Hv. reflexivity.
Qed.

Lemma catalog_has_every_up_file_witness :
  exists m,
    In m (catalog "/app/sql" ["V002__add_users.down.sql"; "V001__init.up.sql";
                              "V002__add_users.up.sql"])
    /\ MigrationFile.version m = "002"
    /\ MigrationFile.name m = replace_underscores "add_users"
    /\ MigrationFile.upPath m = path_join "/app/sql" "V002__add_users.up.sql"
    /\ (forall g, In g ["V002__add_users.down.sql"; "V001__init.up.sql";
                        "V002__add_users.up.sql"] ->
                  match_migration g = Some ("002", "add_users", down) ->
                  MigrationFile.downPath m = Some (path_join "/app/sql" g))
    /\ ((forall g, In g ["V002__add_users.down.sql"; "V001__init.up.sql";
                         "V002__add_users.up.sql"] ->
                   match_migration g <> Some ("002", "add_users", down)) ->
        MigrationFile.downPath m = None).
Proof.
  refine (catalog_has_every_up_file "/app/sql"
            ["V002__add_users.down.sql"; "V001__init.up.sql"; "V002__add_users.up.sql"]
            "V002__add_users.up.sql" "002" "add_users" _ _).
  - right. right. left. reflexivity.
  - reflexivity.
Defined.

Lemma load_file_unmatched (dir : string) (m : MigrationMap) (f : string) :
  matches f = false -> load_file dir m f = m.
Proof.
  unfold matches, load_file. destruct (match_migration f); [discriminate|reflexivity].
Qed.

Lemma fold_load_file_filter (dir : string) (files : list string) :
  forall m, fold_left (load_file dir) files m
            = fold_left (load_file dir) (filter matches files) m.
Proof.
  induction files as [|f files IH]; intros m; simpl; [reflexivity|].
  destruct (matches f) eqn:Hf; simpl.
  - apply IH.
  - rewrite (load_file_unmatched dir m f Hf). apply IH.
Qed.

Lemma Array_sort_of_sorted {A : Type} (compareFn : A -> A -> comparison) (l : list A) :
  StronglySorted (fun a b => not_after compareFn a b = true) l ->
  Array_sort compareFn l = l.
Proof.
  induction 1 as [|x l Hs IH Hall]; simpl; [reflexivity|].
  rewrite IH. destruct l as [|y l]; simpl; [reflexivity|].
  inversion Hall as [|? ? Hxy _]; subst. rewrite Hxy. reflexivity.
Qed.

Lemma StronglySorted_filter {A : Type} (P : A -> A -> Prop) (p : A -> bool) (l : list A) :
  StronglySorted P l -> StronglySorted P (filter p l).
Proof.
  induction 1 as [|x l Hs IH Hall]; simpl; [constructor|].
  destruct (p x); [|exact IH].
  constructor; [exact IH|].
  apply Forall_forall. intros y Hy. apply filter_In in Hy.
  rewrite Forall_forall in Hall. apply Hall. tauto.
Qed.

Lemma filter_perm {A : Type} (p : A -> bool) (l l' : list A) :
  Permutation l l' -> Permutation (filter p l) (filter p l').
Proof.
  induction 1 as [|x l l' _ IH|x y l|l l' l'' _ IH1 _ IH2]; simpl.
  - constructor.
  - destruct (p x); [apply perm_skip|]; exact IH.
  - destruct (p x), (p y); try reflexivity. apply perm_swap.
  - eapply perm_trans; eassumption.
Qed.

(** Sorting the names and dropping some of them can be done in either
    order. *)
Lemma filter_sorted_names (p : string -> bool) (l : list string) :
  filter p (Array_sort compare_code_units l) = Array_sort compare_code_units (filter p l).
Proof.
  rewrite <- (Array_sort_of_sorted compare_code_units (filter p (Array_sort compare_code_units l))).
  - apply (Array_sort_order_independent compare_code_units
             code_unit_leb_total code_unit_leb_trans code_unit_leb_antisym).
    apply filter_perm. symmetry. apply Array_sort_perm.
  - apply StronglySorted_filter.
    apply (Array_sort_sorted compare_code_units code_unit_leb_total code_unit_leb_trans).
Qed.

(** X11. Names of the listing that do not match the pattern are
    ignored: the catalog of a listing is the catalog of its matching
    names alone, so other files in the directory change nothing. *)
Theorem catalog_ignores_other_files (dir : string) (entries : list string) :
  catalog dir entries = catalog dir (filter matches entries)
  /\ forall others,
       (forall f, In f others -> match_migration f = None) ->
       catalog dir (entries ++ others)%list = catalog dir entries.
Proof.
  assert (H : forall l, catalog dir l = catalog dir (filter matches l)).
  { intros l. unfold catalog.
    rewrite (fold_load_file_filter dir (Array_sort compare_code_units l)).
    rewrite (fold_load_file_filter dir (Array_sort compare_code_units (filter matches l))).
    rewrite !filter_sorted_names.
    assert (E : filter matches (filter matches l) = filter matches l).
    { induction l as [|f l IH]; simpl; [reflexivity|].
      destruct (matches f) eqn:Hf; simpl; [rewrite Hf, IH|]; auto. }
    rewrite E. reflexivity. }
  split; [apply H|].
  intros others Hothers. rewrite (H (entries ++ others)%list), (H entries).
  rewrite filter_app.
  assert (E : filter matches others = []).
  { induction others as [|f others IH]; simpl; [reflexivity|].
    unfold matches at 1. rewrite (Hothers f (or_introl eq_refl)).
    apply IH. intros g Hg. apply Hothers. right. exact Hg. }
  rewrite E, app_nil_r. reflexivity.
Qed.

Lemma catalog_ignores_other_files_witness :
  catalog "/app/sql" (["V002__y.up.sql"; "V001__init.up.sql"]
                      ++ ["README.md"; "V3_draft.up.sql"; "V4__x.up.sql.bak"])%list
  = catalog "/app/sql" ["V002__y.up.sql"; "V001__init.up.sql"].
Proof.
  refine (proj2 (catalog_ignores_other_files "/app/sql"
                   ["V002__y.up.sql"; "V001__init.up.sql"])
            ["README.md"; "V3_draft.up.sql"; "V4__x.up.sql.bak"] _).
  intros f [<-|[<-|[<-|[]]]]; reflexivity.
Defined.

(** X12. A directory without any up file (empty, or with other files
    and down files only) is no error: discovery returns the empty
    catalog and writes the warning "No migration files found". *)
Theorem discovery_of_no_up_file
    {R : Type} {RT : Runtime R} (env : Env) (dir : string) (entries : list string)
    (w : World R) :
  fs env dir = Some (Directory entries) ->
  (forall f version description,
     In f entries -> match_migration f <> Some (version, description, up)) ->
  catalog dir entries = []
  /\ loadMigrationFiles env dir w
     = (inr [], write_line w (WARN, "No migration files found in " ++ dir)).
Proof.
  intros Hdir Hno.
  assert (E : catalog dir entries = []).
  { destruct (catalog dir entries) as [|m l] eqn:Hc; [reflexivity|].
    exfalso.
    destruct (catalog_entry_from_up_file dir entries m) as (d & f & _ & Hf & Hm & _).
    { rewrite Hc. left. reflexivity. }
    exact (Hno f _ _ Hf Hm). }
  split; [exact E|].
  rewrite (loadMigrationFiles_directory env dir entries w Hdir), E. reflexivity.
Qed.

Lemma discovery_of_no_up_file_witness :
  catalog "/app/sql" ["V001__init.down.sql"] = []
  /\ loadMigrationFiles
       {| fs := fun p => if p =? "/app/sql" then Some (Directory ["V001__init.down.sql"])
                         else None;
          config := example_config; __dirname := "/app" |}
       "/app/sql" (example_world [])
     = (inr [], write_line (example_world [])
                  (WARN, "No migration files found in " ++ "/app/sql")).
Proof.
  refine (discovery_of_no_up_file
            {| fs := fun p => if p =? "/app/sql" then Some (Directory ["V001__init.down.sql"])
                              else None;
               config := example_config; __dirname := "/app" |}
            "/app/sql" ["V001__init.down.sql"] (example_world []) eq_refl _).
  intros f v d [<-|[]]. vm_compute. discriminate.
Defined.

Lemma replace_underscores_clean (description : string) :
  string_exists is_underscore (replace_underscores description) = false
  /\ String.length (replace_underscores description) = String.length description.
Proof.
  unfold replace_underscores.
  induction description as [|c s [IH1 IH2]]; simpl; [auto|].
  rewrite IH1, IH2. split; [|reflexivity].
  destruct (Ascii.eqb_spec c "_") as [->|Hne]; [reflexivity|].
  rewrite orb_false_r. unfold is_underscore. apply Ascii.eqb_neq. exact Hne.
Qed.

(** X13. The name of a catalog entry has no underscore: it is the
    description of the file name, of the same length, with a hyphen
    for each underscore. *)
Theorem catalog_names_have_no_underscore
    (dir : string) (entries : list string) (m : MigrationFile.t) :
  In m (catalog dir entries) ->
  string_exists is_underscore (MigrationFile.name m) = false
  /\ exists description,
       MigrationFile.name m = replace_underscores description
       /\ String.length (MigrationFile.name m) = String.length description
       /\ In ("V" ++ MigrationFile.version m ++ "__" ++ description ++ ".up.sql") entries.
Proof.
  intros Hin.
  destruct (catalog_entry_from_up_file dir entries m Hin) as (d & f & Hname & Hf & Hm & _).
  destruct (replace_underscores_clean d) as [Hclean Hlen].
  rewrite Hname. split; [exact Hclean|].
  exists d. split; [reflexivity|]. split; [exact Hlen|].
  apply match_migration_sound in Hm. destruct Hm as (E & _).
  simpl direction_suffix in E. rewrite <- E. exact Hf.
Qed.

Lemma catalog_names_have_no_underscore_witness :
  string_exists is_underscore "add-users-table" = false
  /\ exists description,
       "add-users-table" = replace_underscores description
       /\ String.length "add-users-table" = String.length description
       /\ In ("V" ++ "7" ++ "__" ++ description ++ ".up.sql") ["V7__add_users_table.up.sql"].
Proof.
  refine (catalog_names_have_no_underscore "/app/sql" ["V7__add_users_table.up.sql"]
            (MigrationFile.make "7" "add-users-table"
               "/app/sql/V7__add_users_table.up.sql" None) _).
  left. reflexivity.
Defined.

(** * Further facts: the resources *)

Section ResourceFacts.
Context {R : Type} {RT : Runtime R}.
Variable env : Env.

(** One turn of the loop that goes on: the resource it makes carries
    the scripts of the entry. *)
Lemma createMigrationResources_loop_carries (f : MigrationFile.t)
    (rest : list MigrationFile.t) (migrations : list SchemaVersion)
    (previous : option SchemaVersion) (w w' : World R) (rs : list SchemaVersion) :
  createMigrationResources_loop env (f :: rest) migrations previous w = (inr rs, w') ->
  exists r,
    carries env f r
    /\ dependsOn r = match previous with Some p => [p] | None => [] end
    /\ createMigrationResources_loop env rest (migrations ++ [r])%list (Some r) w
       = (inr rs, w').
Proof.
  cbn [createMigrationResources_loop]. unfold bind at 1.
  destruct (readSqlFile_outcome env (MigrationFile.upPath f) w)
    as [(upSql & Hup & E)|(_ & e & E)]; rewrite E; [|discriminate].
  unfold bind at 1. unfold carries.
  destruct (MigrationFile.downPath f) as [p|].
  - destruct (truthy p).
    + unfold bind at 1.
      destruct (readSqlFile_outcome env p w) as [(downSql & Hdown & E')|(_ & e & E')];
        rewrite E'; [|discriminate].
      unfold ret at 1. unfold bind at 1.
      destruct (require_outcome env "database" w) as [(db & Hdb & E'')|(_ & e & E'')];
        rewrite E''; [|discriminate].
      intro H. eexists. split; [|split; [|exact H]]; simpl; eauto.
    + unfold ret at 1. unfold bind at 1.
      destruct (require_outcome env "database" w) as [(db & Hdb & E'')|(_ & e & E'')];
        rewrite E''; [|discriminate].
      intro H. eexists. split; [|split; [|exact H]]; simpl; eauto.
  - unfold ret at 1. unfold bind at 1.
    destruct (require_outcome env "database" w) as [(db & Hdb & E'')|(_ & e & E'')];
      rewrite E''; [|discriminate].
    intro H. eexists. split; [|split; [|exact H]]; simpl; eauto.
Qed.

Lemma createMigrationResources_loop_all_carry (files : list MigrationFile.t) :
  forall (migrations : list SchemaVersion) (previous : option SchemaVersion)
         (w w' : World R) (rs : list SchemaVersion),
    createMigrationResources_loop env files migrations previous w = (inr rs, w') ->
    exists made, rs = (migrations ++ made)%list /\ Forall2 (carries env) files made.
Proof.
  induction files as [|f rest IH]; intros migrations previous w w' rs.
  - simpl. unfold ret. intro H. inversion H. subst.
    exists []. rewrite app_nil_r. auto.
  - intro H. apply createMigrationResources_loop_carries in H.
    destruct H as (r & Hr & _ & H). apply IH in H. destruct H as (made & -> & Hall).
    exists (r :: made). rewrite <- app_assoc. auto.
Qed.

(** Over an entry that can be read, the loop goes on to the next one. *)
Lemma createMigrationResources_loop_readable_step (f : MigrationFile.t)
    (rest : list MigrationFile.t) (migrations : list SchemaVersion)
    (previous : option SchemaVersion) (w : World R) :
  readable env [f] ->
  get (config env) "database" <> None ->
  exists r,
    createMigrationResources_loop env (f :: rest) migrations previous w
    = createMigrationResources_loop env rest (migrations ++ [r])%list (Some r) w.
Proof.
  intros Hread Hdb.
  destruct (Hread f (or_introl eq_refl)) as [(upText & Hup) Hdown].
  remember (createMigrationResources_loop env (f :: rest) migrations previous w)
    as res eqn:Hres.
  cbn [createMigrationResources_loop] in Hres. unfold bind at 1 in Hres.
  destruct (readSqlFile_outcome env (MigrationFile.upPath f) w)
    as [(upSql & _ & E)|(Hno & _)]; [rewrite E in Hres|exfalso; eapply Hno; eauto].
  unfold bind at 1 in Hres.
  destruct (require_outcome env "database" w) as [(db & _ & Hreq)|(Hnone & _)];
    [|contradiction].
  destruct (MigrationFile.downPath f) as [p|].
  - destruct (truthy p) eqn:Hp.
    + destruct (Hdown p eq_refl Hp) as (downText & Hdp).
      unfold bind at 1 in Hres.
      destruct (readSqlFile_outcome env p w) as [(downSql & _ & E')|(Hno & _)];
        [rewrite E' in Hres|exfalso; eapply Hno; eauto].
      unfold ret at 1 in Hres. unfold bind at 1 in Hres. rewrite Hreq in Hres.
      eexists. exact Hres.
    + unfold ret at 1 in Hres. unfold bind at 1 in Hres. rewrite Hreq in Hres.
      eexists. exact Hres.
  - unfold ret at 1 in Hres. unfold bind at 1 in Hres. rewrite Hreq in Hres.
    eexists. exact Hres.
Qed.

(** Over entries that can be read, the loop goes on to the next ones. *)
Lemma createMigrationResources_loop_prefix (pre tail : list MigrationFile.t) :
  readable env pre ->
  get (config env) "database" <> None ->
  forall (migrations : list SchemaVersion) (previous : option SchemaVersion) (w : World R),
  exists migrations' previous',
    createMigrationResources_loop env (pre ++ tail)%list migrations previous w
    = createMigrationResources_loop env tail migrations' previous' w.
Proof.
  intros Hread Hdb. induction pre as [|f pre IH]; intros migrations previous w.
  - simpl. eauto.
  - assert (Hpre : readable env pre).
    { intros g Hg. apply Hread. right. exact Hg. }
    assert (Hf : readable env [f]).
    { intros g [<-|[]]. apply Hread. left. reflexivity. }
    destruct (createMigrationResources_loop_readable_step f (pre ++ tail)%list
                migrations previous w Hf Hdb) as (r & Hr).
    rewrite <- app_comm_cons, Hr. apply IH. exact Hpre.
Qed.

End ResourceFacts.

(** X14. A catalog entry whose script cannot be found stops
    [createMigrationResources]: with the entries before it readable,
    it throws "SQL file not found" with the path of the missing up
    file, or of the missing down file of an entry that has a down
    path, and returns no resource at all. *)
Theorem createMigrationResources_script_not_found
    {R : Type} {RT : Runtime R} (env : Env) (dir : string)
    (pre rest : list MigrationFile.t) (f : MigrationFile.t) (w : World R) :
  readable env pre ->
  get (config env) "database" <> None ->
  (fs env (MigrationFile.upPath f) = None ->
   createMigrationResources env
     {| migrationsPath := dir; migrationFiles := (pre ++ f :: rest)%list |} w
   = (inl (new_Error ("SQL file not found: " ++ MigrationFile.upPath f)), w))
  /\ (forall text p,
        fs env (MigrationFile.upPath f) = Some (File text) ->
        MigrationFile.downPath f = Some p ->
        truthy p = true ->
        fs env p = None ->
        createMigrationResources env
          {| migrationsPath := dir; migrationFiles := (pre ++ f :: rest)%list |} w
        = (inl (new_Error ("SQL file not found: " ++ p)), w)).
Proof.
  intros Hread Hdb. unfold createMigrationResources. simpl migrationFiles.
  destruct (createMigrationResources_loop_prefix env pre (f :: rest) Hread Hdb [] None w)
    as (ms & prev & ->).
  split.
  - intros Hup. cbn [createMigrationResources_loop]. unfold bind at 1.
    unfold readSqlFile, existsSync. rewrite Hup. reflexivity.
  - intros text p Hup Hdown Hp Hnone. cbn [createMigrationResources_loop].
    unfold bind at 1. unfold readSqlFile at 1, existsSync, readFileSync. rewrite Hup.
    cbn [negb]. cbv iota. unfold ret at 1. unfold bind at 1.
    rewrite Hdown, Hp. unfold bind at 1.
    unfold readSqlFile, existsSync. rewrite Hnone. reflexivity.
Qed.

Lemma createMigrationResources_script_not_found_witness :
  createMigrationResources example_env
    {| migrationsPath := "/app/sql";
       migrationFiles :=
         ([MigrationFile.make "001" "init" "/app/sql/V001__init.up.sql"
             (Some "/app/sql/V001__init.down.sql")]
          ++ MigrationFile.make "002" "y" "/app/sql/V002__y.up.sql"
               (Some "/app/sql/V002__y.down.sql")
          :: [MigrationFile.make "003" "x" "/app/sql/V003__x.up.sql" None])%list |}
    (example_world [])
  = (inl (new_Error ("SQL file not found: " ++ "/app/sql/V002__y.down.sql")),
     example_world []).
Proof.
  refine (proj2 (createMigrationResources_script_not_found example_env "/app/sql"
                   [MigrationFile.make "001" "init" "/app/sql/V001__init.up.sql"
                      (Some "/app/sql/V001__init.down.sql")]
                   [MigrationFile.make "003" "x" "/app/sql/V003__x.up.sql" None]
                   (MigrationFile.make "002" "y" "/app/sql/V002__y.up.sql"
                      (Some "/app/sql/V002__y.down.sql"))
                   (example_world []) _ _)
            "CREATE TABLE b (id int);" "/app/sql/V002__y.down.sql"
            eq_refl eq_refl eq_refl eq_refl).
  - intros g [<-|[]]. split; [eexists; reflexivity|].
    intros p Hp _. inversion Hp; subst. eexists. reflexivity.
  - discriminate.
Defined.

(** X15. Every resource [createMigrationResources] returns carries the
    scripts of its own catalog entry: as [upSql] the text of the entry's
    up file, as [downSql] the text of its down file (none when the
    entry has no down path), and the configured database. *)
Theorem resources_carry_their_scripts
    {R : Type} {RT : Runtime R} (env : Env) (this : FileMigrationManager)
    (w w' : World R) (rs : list SchemaVersion) :
  createMigrationResources env this w = (inr rs, w') ->
  Forall2 (carries env) (migrationFiles this) rs.
Proof.
  intros H. unfold createMigrationResources in H.
  apply createMigrationResources_loop_all_carry in H.
  destruct H as (made & -> & Hall). exact Hall.
Qed.

Lemma resources_carry_their_scripts_witness :
  Forall2 (carries example_env) (migrationFiles example_manager) example_resources.
Proof.
  refine (resources_carry_their_scripts (RT := scripted_runtime) example_env example_manager
            (example_world []) (example_world []) example_resources _).
  vm_compute. reflexivity.
Defined.

Lemma ancestors_of_dependsOn (r : SchemaVersion) :
  (dependsOn r = [] -> ancestors r = [])
  /\ (forall p, dependsOn r = [p] -> ancestors r = p :: ancestors p).
Proof.
  destruct r as [n a deps]. simpl. split.
  - intros ->. reflexivity.
  - intros p ->. rewrite app_nil_r. reflexivity.
Qed.

Lemma chained_ancestors (files : list MigrationFile.t) :
  forall (previous : option SchemaVersion) (rs : list SchemaVersion),
    chained previous files rs ->
    forall i r, nth_error rs i = Some r ->
      ancestors r
      = (rev (firstn i rs)
         ++ match previous with Some p => p :: ancestors p | None => [] end)%list.
Proof.
  induction files as [|f files IH]; intros previous [|r0 rs]; simpl; try contradiction.
  - intros _ [|i] r; discriminate.
  - intros (_ & _ & _ & Hdep & Hch).
    assert (H0 : ancestors r0
                 = match previous with Some p => p :: ancestors p | None => [] end).
    { destruct (ancestors_of_dependsOn r0) as [Hnil Hone].
      destruct previous as [p|]; [apply Hone|apply Hnil]; exact Hdep. }
    intros [|i] r; simpl.
    + intro H. inversion H. subst r0. exact H0.
    + intro H. rewrite (IH _ _ Hch i r H). rewrite H0, <- app_assoc. reflexivity.
Qed.

(** X16. The chain orders the resources totally: the resources a
    resource waits for, through its [dependsOn] and theirs in turn, are
    exactly the resources of all the catalog entries before its own,
    the nearest first. *)
Theorem resources_wait_for_all_earlier
    {R : Type} {RT : Runtime R} (env : Env) (this : FileMigrationManager)
    (w w' : World R) (rs : list SchemaVersion) :
  createMigrationResources env this w = (inr rs, w') ->
  forall i r, nth_error rs i = Some r -> ancestors r = rev (firstn i rs).
Proof.
  intros H i r Hr. unfold createMigrationResources in H.
  apply createMigrationResources_loop_chained in H.
  destruct H as [_ (made & -> & Hch)]. simpl in *.
  rewrite (chained_ancestors _ _ _ Hch i r Hr). apply app_nil_r.
Qed.

Lemma resources_wait_for_all_earlier_witness :
  ancestors (nth 1 example_resources (new_SchemaVersion "" example_inputs []))
  = rev (firstn 1 example_resources).
Proof.
  refine (resources_wait_for_all_earlier (RT := scripted_runtime) example_env example_manager
            (example_world []) (example_world []) example_resources _ 1%nat
            (nth 1 example_resources (new_SchemaVersion "" example_inputs [])) _).
  - vm_compute. reflexivity.
  - reflexivity.
Defined.

Lemma last_segment_join (dir f : string) :
  single_segment f -> last_segment (path_join dir f) = f.
Proof.
  unfold single_segment, path_join. intros Hf.
  induction dir as [|c dir IH].
  - change ("" ++ "/" ++ f) with (String "/" f).
    cbn [last_segment]. rewrite Hf. reflexivity.
  - change (String c dir ++ "/" ++ f) with (String c (dir ++ "/" ++ f)).
    cbn [last_segment].
    assert (E : string_exists is_slash (dir ++ "/" ++ f) = true).
    { rewrite string_exists_append. apply orb_true_iff. right. reflexivity. }
    rewrite E. exact IH.
Qed.

Lemma up_file_name_split (v d : string) :
  "V" ++ v ++ "__" ++ d ++ ".up.sql" = ("V" ++ v ++ "__" ++ d ++ ".up") ++ ".sql".
Proof.
  change ("V" ++ v ++ "__" ++ d ++ ".up.sql") with (String "V" (v ++ "__" ++ d ++ ".up.sql")).
  change (("V" ++ v ++ "__" ++ d ++ ".up") ++ ".sql")
    with (String "V" ((v ++ "__" ++ d ++ ".up") ++ ".sql")).
  f_equal. rewrite append_assoc. f_equal.
  change ("__" ++ d ++ ".up.sql") with (String "_" (String "_" (d ++ ".up.sql"))).
  change (("__" ++ d ++ ".up") ++ ".sql") with (String "_" (String "_" ((d ++ ".up") ++ ".sql"))).
  f_equal. f_equal. rewrite append_assoc. reflexivity.
Qed.

(** The name of the resource of an up file is the file name without
    its [.sql]. *)
Lemma basename_of_up_file (dir f v d : string) :
  single_segment f ->
  match_migration f = Some (v, d, up) ->
  path_basename (path_join dir f) ".sql" = "V" ++ v ++ "__" ++ d ++ ".up".
Proof.
  intros Hseg Hm. unfold path_basename. rewrite (last_segment_join dir f Hseg).
  apply match_migration_sound in Hm. destruct Hm as (E & _).
  simpl direction_suffix in E. rewrite E, up_file_name_split, strip_suffix_append.
  reflexivity.
Qed.

Lemma NoDup_map_inj_on {A B C : Type} (g : A -> B) (h : A -> C) (l : list A) :
  NoDup (map g l) ->
  (forall a b, In a l -> In b l -> h a = h b -> g a = g b) ->
  NoDup (map h l).
Proof.
  induction l as [|a l IH]; simpl; intros Hnd Hinj; [constructor|].
  inversion Hnd as [|? ? Hnot Hnd']; subst. constructor.
  - intro Hin. apply in_map_iff in Hin. destruct Hin as (b & Hb & Hbl).
    apply Hnot. rewrite (Hinj a b); auto. apply in_map. exact Hbl.
  - apply IH; [exact Hnd'|]. intros x y Hx Hy. apply Hinj; right; assumption.
Qed.

Lemma catalog_upPaths_distinct (dir : string) (entries : list string) :
  NoDup (map MigrationFile.upPath (catalog dir entries)).
Proof.
  unfold catalog.
  eapply Permutation_NoDup; [apply Permutation_map, Array_sort_perm|].
  destruct (catalog_map_invariant dir entries) as [Hnd Hall].
  apply NoDup_map_filter_values; [exact Hnd|].
  intros k1 v1 k2 v2 H1 H2 P1 P2 Heq.
  destruct (Hall _ H1) as (d1 & Hk1 & _ & _ & Hu1 & _).
  destruct (Hall _ H2) as (d2 & Hk2 & _ & _ & Hu2 & _). simpl in *.
  destruct Hu1 as [E|(f1 & _ & Hm1 & Hp1)]; [rewrite E in P1; discriminate|].
  destruct Hu2 as [E|(f2 & _ & Hm2 & Hp2)]; [rewrite E in P2; discriminate|].
  rewrite Hp1, Hp2 in Heq. apply path_join_inj in Heq. subst f2.
  rewrite Hm1 in Hm2. inversion Hm2 as [[Hv Hd]].
  rewrite Hk1, Hk2, Hv, Hd. reflexivity.
Qed.

Lemma chained_names (files : list MigrationFile.t) :
  forall (previous : option SchemaVersion) (rs : list SchemaVersion),
    chained previous files rs ->
    map resourceName rs
    = map (fun f => path_basename (MigrationFile.upPath f) ".sql") files.
Proof.
  induction files as [|f files IH]; intros previous [|r rs]; simpl; try contradiction.
  - reflexivity.
  - intros (Hn & _ & _ & _ & Hch). rewrite Hn, (IH _ _ Hch). reflexivity.
Qed.

(** X17. For a listing of single-segment names, the resources built
    from the discovered catalog are named [V<version>__<description>.up],
    after the up file without its [.sql], and no two of them have the
    same name. *)
Theorem resource_names_are_distinct
    {R : Type} {RT : Runtime R} (env : Env) (dir : string) (entries : list string)
    (w w' : World R) (rs : list SchemaVersion) :
  (forall f, In f entries -> single_segment f) ->
  createMigrationResources env
    {| migrationsPath := dir; migrationFiles := catalog dir entries |} w = (inr rs, w') ->
  NoDup (map resourceName rs)
  /\ forall r, In r rs ->
       exists description,
         resourceName r
         = "V" ++ SchemaVersionArgs.version (args r) ++ "__" ++ description ++ ".up"
         /\ SchemaVersionArgs.name (args r) = replace_underscores description.
Proof.
  intros Hseg H. unfold createMigrationResources in H. simpl migrationFiles in H.
  apply createMigrationResources_loop_chained in H.
  destruct H as [_ (made & -> & Hch)]. simpl.
  assert (Hname : forall m, In m (catalog dir entries) ->
            exists d, path_basename (MigrationFile.upPath m) ".sql"
                      = "V" ++ MigrationFile.version m ++ "__" ++ d ++ ".up"
                      /\ MigrationFile.name m = replace_underscores d
                      /\ MigrationFile.upPath m
                         = path_join dir ("V" ++ MigrationFile.version m ++ "__" ++ d
                                            ++ ".up.sql")).
  { intros m Hin.
    destruct (catalog_entry_from_up_file dir entries m Hin) as (d & f & Hn & Hf & Hm & Hp & _).
    exists d. rewrite Hp. split; [|split; [exact Hn|]].
    - apply basename_of_up_file; [apply Hseg; exact Hf|exact Hm].
    - apply match_migration_sound in Hm. destruct Hm as (E & _).
      simpl direction_suffix in E. rewrite <- E. reflexivity. }
  split.
  - rewrite (chained_names _ _ _ Hch).
    apply (NoDup_map_inj_on MigrationFile.upPath); [apply catalog_upPaths_distinct|].
    intros a b Ha Hb Hab.
    destruct (Hname a Ha) as (da & Ea & _ & Pa).
    destruct (Hname b Hb) as (db & Eb & _ & Pb).
    rewrite Pa, Pb, !up_file_name_split, <- Ea, <- Eb, Hab. reflexivity.
  - intros r Hr. apply In_nth_error in Hr. destruct Hr as (i & Hi).
    destruct (chained_nth _ _ _ Hch) as [_ Hnth].
    destruct (Hnth i r Hi) as [(f & Hf & Hn & Hv & Hnm) _].
    apply nth_error_In in Hf.
    destruct (Hname f Hf) as (d & Ed & Nd & _).
    exists d. rewrite Hn, Hv, Hnm. auto.
Qed.

Lemma resource_names_are_distinct_witness :
  NoDup (map resourceName example_resources)
  /\ forall r, In r example_resources ->
       exists description,
         resourceName r
         = "V" ++ SchemaVersionArgs.version (args r) ++ "__" ++ description ++ ".up"
         /\ SchemaVersionArgs.name (args r) = replace_underscores description.
Proof.
  refine (resource_names_are_distinct (RT := scripted_runtime) example_env "/app/sql"
            ["V003__x.up.sql"; "V001__init.up.sql"; "V001__init.down.sql"]
            (example_world []) (example_world []) example_resources _ _).
  - intros f [<-|[<-|[<-|[]]]]; reflexivity.
  - vm_compute. reflexivity.
Defined.

(** * Further facts: the body of the module *)

Lemma last_entry_cons (a : MigrationFile.t) (l : list MigrationFile.t) :
  last_entry (a :: l) = match l with [] => Some a | _ :: _ => last_entry l end.
Proof. destruct l; reflexivity. Qed.

Lemma last_entry_In (l : list MigrationFile.t) (x : MigrationFile.t) :
  last_entry l = Some x -> In x l.
Proof.
  induction l as [|a l IH]; [discriminate|].
  rewrite last_entry_cons. destruct l as [|b l].
  - intro H. inversion H. left. reflexivity.
  - intro H. right. apply IH. exact H.
Qed.

Lemma last_entry_none (l : list MigrationFile.t) : last_entry l = None <-> l = [].
Proof.
  split; [|intros ->; reflexivity].
  induction l as [|a l IH]; [reflexivity|].
  rewrite last_entry_cons. destruct l as [|b l]; [discriminate|].
  intro H. apply IH in H. discriminate.
Qed.

Lemma sorted_last_is_greatest (P : MigrationFile.t -> MigrationFile.t -> Prop)
    (l : list MigrationFile.t) :
  (forall a, P a a) ->
  StronglySorted P l ->
  forall m x, In m l -> last_entry l = Some x -> P m x.
Proof.
  intros Hrefl. induction 1 as [|a l Hs IH Hall]; intros m x Hm Hx; [contradiction|].
  rewrite last_entry_cons in Hx. destruct l as [|b l].
  - inversion Hx. subst x. destruct Hm as [<-|[]]. apply Hrefl.
  - destruct Hm as [<-|Hm].
    + rewrite Forall_forall in Hall. apply Hall. apply last_entry_In. exact Hx.
    + apply IH; assumption.
Qed.

Lemma catalog_sorted (dir : string) (entries : list string) :
  StronglySorted
    (fun a b => (numeric_value (MigrationFile.version a)
                 <= numeric_value (MigrationFile.version b))%N)
    (catalog dir entries).
Proof.
  unfold catalog.
  eapply StronglySorted_impl; [|apply Array_sort_sorted].
  - intros a b. apply compare_versions_le.
  - intros x y. rewrite !compare_versions_le. lia.
  - intros x y z. rewrite !compare_versions_le. lia.
Qed.

(** X18. With the migrations directory listed, its scripts readable and
    the database configured, the body of the module ends well: it
    exports as [migrationCount] the number of catalog entries and as
    [currentMigrationVersion] the version of the last one, which no
    version of the catalog exceeds in number; that export is [null]
    exactly when the catalog is empty. *)
Theorem main_exports_greatest_version
    {R : Type} {RT : Runtime R} (env : Env) (entries : list string) (w : World R) :
  let dir := path_join (__dirname env) "sql" in
  let current := option_map MigrationFile.version (last_entry (catalog dir entries)) in
  fs env dir = Some (Directory entries) ->
  readable env (catalog dir entries) ->
  get (config env) "database" <> None ->
  main env w
  = (inr (current, List.length (catalog dir entries)),
     write_line w (load_line dir (catalog dir entries)))
  /\ (current = None <-> catalog dir entries = [])
  /\ (forall m, In m (catalog dir entries) ->
        exists v, current = Some v
                  /\ (numeric_value (MigrationFile.version m) <= numeric_value v)%N).
Proof.
  intros dir current Hdir Hread Hdb. subst current.
  set (files := catalog dir entries) in *. split; [|split].
  - destruct (createMigrationResources_loop_total env files Hread Hdb
                [] None (write_line w (load_line dir files))) as (rs & Hrs).
    pose proof (createMigrationResources_loop_chained env _ _ _ _ _ _ Hrs) as Hch.
    destruct Hch as [_ (made & Hmade & Hch)]. simpl in Hmade. subst rs.
    destruct (chained_nth _ _ _ Hch) as [Hlen _].
    unfold main, new_FileMigrationManager. unfold bind at 1. unfold bind at 1.
    change (path_join (__dirname env) "sql") with dir.
    rewrite (loadMigrationFiles_directory env dir entries w Hdir).
    unfold ret at 1. unfold bind at 1.
    unfold createMigrationResources, getMigrationFiles. cbn [migrationFiles].
    change (catalog dir entries) with files.
    unfold write_line in Hrs |- *. rewrite Hrs. unfold ret. rewrite Hlen. reflexivity.
  - destruct (last_entry files) as [x|] eqn:Hlast; simpl.
    + split; [discriminate|]. intros E. rewrite E in Hlast. discriminate.
    + split; [|reflexivity]. intros _. apply last_entry_none. exact Hlast.
  - intros m Hm.
    destruct (last_entry files) as [x|] eqn:Hlast; simpl.
    + exists (MigrationFile.version x). split; [reflexivity|].
      apply (sorted_last_is_greatest _ files
               (fun a => N.le_refl _) (catalog_sorted dir entries) m x Hm Hlast).
    + apply last_entry_none in Hlast. rewrite Hlast in Hm. contradiction.
Qed.

Lemma main_exports_greatest_version_witness :
  main duplicate_env (example_world [])
  = (inr (option_map MigrationFile.version
            (last_entry (catalog (path_join (__dirname duplicate_env) "sql")
                           ["V001__a.up.sql"; "V001__b.down.sql"; "V001__b.up.sql"])),
          List.length (catalog (path_join (__dirname duplicate_env) "sql")
                         ["V001__a.up.sql"; "V001__b.down.sql"; "V001__b.up.sql"])),
     write_line (example_world [])
       (load_line (path_join (__dirname duplicate_env) "sql")
          (catalog (path_join (__dirname duplicate_env) "sql")
             ["V001__a.up.sql"; "V001__b.down.sql"; "V001__b.up.sql"]))).
Proof.
  refine (proj1 (main_exports_greatest_version (RT := scripted_runtime) duplicate_env
                   ["V001__a.up.sql"; "V001__b.down.sql"; "V001__b.up.sql"]
                   (example_world []) eq_refl _ _)).
  - intros f Hf. vm_compute in Hf.
    destruct Hf as [<-|[<-|[]]]; (split; [eexists; vm_compute; reflexivity|]);
      intros p Hp _; inversion Hp; subst; eexists; vm_compute; reflexivity.
  - simpl. discriminate.
Defined.

(** * Further facts: the pattern of the file names *)

Lemma match_migration_description_clean (file version description : string)
    (dir : direction) :
  match_migration file = Some (version, description, dir) ->
  has_line_terminator description = false.
Proof.
  unfold match_migration.
  destruct (strip_prefix "V" file) as [rest|]; [|discriminate].
  destruct (span_digits rest) as [digits rest'].
  destruct digits as [|c0 digits]; [discriminate|].
  destruct (strip_prefix "__" rest') as [tail|]; [|discriminate].
  destruct (has_line_terminator tail) eqn:Hlt; [discriminate|].
  assert (H : forall way d, strip_suffix (direction_suffix way) tail = Some d ->
                            has_line_terminator d = false).
  { intros way d Hs. apply strip_suffix_some in Hs. rewrite Hs in Hlt.
    rewrite has_line_terminator_suffix in Hlt. exact Hlt. }
  destruct (strip_suffix ".up.sql" tail) as [[|c d]|] eqn:Hup;
    [ | intro E; inversion E; subst; exact (H up _ Hup) | ];
    (destruct (strip_suffix ".down.sql" tail) as [[|c' d']|] eqn:Hdown;
     [ discriminate | intro E; inversion E; subst; exact (H down _ Hdown) | discriminate ]).
Qed.

(** X19. The names the pattern accepts are exactly those made of [V],
    a non-empty run of decimal digits, two underscores, a non-empty
    description without line terminator (LF, CR, U+2028 or U+2029),
    and [.up.sql] or [.down.sql];
    the captures are that run of digits, that description and that
    direction, so a name built from a version, a description and a
    direction is read back as them. *)
Theorem match_migration_round_trip (file version description : string) (dir : direction) :
  match_migration file = Some (version, description, dir)
  <-> file = "V" ++ version ++ "__" ++ description ++ direction_suffix dir
      /\ version <> ""
      /\ string_forall is_digit version = true
      /\ description <> ""
      /\ has_line_terminator description = false.
Proof.
  split.
  - intros H. pose proof (match_migration_description_clean _ _ _ _ H) as Hclean.
    apply match_migration_sound in H. tauto.
  - intros (-> & Hv & Hdig & Hd & Hlt). apply match_migration_complete; assumption.
Qed.

Lemma match_migration_round_trip_witness :
  match_migration "V20240131__add_users.down.sql" = Some ("20240131", "add_users", down).
Proof.
  refine (proj2 (match_migration_round_trip "V20240131__add_users.down.sql"
                   "20240131" "add_users" down) _).
  repeat split; discriminate.
Defined.

(** * Further facts: [delete] at the edges *)

(** X20. When the down script has been executed and the closing of the
    client then throws, [delete] throws the error of the closing,
    unwrapped, after the line "Rolled back migration" and the call of
    [console.error] labelled "Failed to rollback migration": the
    record stays although the rollback ran. *)
Theorem delete_fails_when_closing_fails
    {R : Type} {RT : Runtime R} (env : Env) (id : string) (props : SchemaVersionState.t)
    (entries : list string) (p text : string) (w : World R) (o1 o2 o3 : R) (e : exn) :
  fs env (path_join (__dirname env) "sql") = Some (Directory entries) ->
  optional_downPath
    (find_migration props (catalog (path_join (__dirname env) "sql") entries)) = Some p ->
  fs env p = Some (File text) ->
  configured env ->
  client_connect (outside w) = (None, o1) ->
  client_query text o1 = (None, o2) ->
  client_end o2 = (Some e, o3) ->
  delete env id props w
  = (inl e,
     {| outside := o3;
        queries := (queries w ++ [text])%list;
        console := List.app (console w)
                     [load_line (path_join (__dirname env) "sql")
                        (catalog (path_join (__dirname env) "sql") entries);
                      (LOG, "Rolled back migration: " ++ SchemaVersionState.version props
                              ++ " - " ++ SchemaVersionState.name props);
                      (ERROR, "Failed to rollback migration "
                                ++ SchemaVersionState.version props ++ ":")] |}).
Proof.
  intros Hdir Hp Hfile Hcfg Hconn Hq Hend.
  rewrite (delete_resolved env id props entries p text w Hdir Hp Hfile).
  rewrite (rollback_run env props p text
             (write_line w (load_line (path_join (__dirname env) "sql")
                              (catalog (path_join (__dirname env) "sql") entries)))
             o1 Hcfg Hfile Hconn).
  rewrite Hq, Hend. unfold write_line. cbn [outside queries console].
  rewrite <- !app_assoc. reflexivity.
Qed.

Lemma delete_fails_when_closing_fails_witness :
  delete example_env "app-001-1700000000000" (example_state "001" "init" None)
    (faulty_world None (Some connection_refused))
  = (inl connection_refused,
     {| outside := outside (faulty_world None (Some connection_refused));
        queries := List.app (queries (faulty_world None (Some connection_refused)))
                     ["DROP TABLE a;"];
        console := List.app (console (faulty_world None (Some connection_refused)))
                     [load_line (path_join (__dirname example_env) "sql")
                        (catalog (path_join (__dirname example_env) "sql")
                           ["V002__y.up.sql"; "V001__init.down.sql"; "V003__x.up.sql";
                            "V001__init.up.sql"; "V002__y.down.sql"]);
                      (LOG, "Rolled back migration: "
                              ++ SchemaVersionState.version (example_state "001" "init" None)
                              ++ " - "
                              ++ SchemaVersionState.name (example_state "001" "init" None));
                      (ERROR, "Failed to rollback migration "
                                ++ SchemaVersionState.version (example_state "001" "init" None)
                                ++ ":")] |}).
Proof.
  exact (delete_fails_when_closing_fails (RT := faulty_runtime) example_env
           "app-001-1700000000000" (example_state "001" "init" None)
           ["V002__y.up.sql"; "V001__init.down.sql"; "V003__x.up.sql";
            "V001__init.up.sql"; "V002__y.down.sql"]
           "/app/sql/V001__init.down.sql" "DROP TABLE a;"
           (faulty_world None (Some connection_refused))
           (outside (faulty_world None (Some connection_refused)))
           (outside (faulty_world None (Some connection_refused)))
           (outside (faulty_world None (Some connection_refused)))
           connection_refused
           eq_refl eq_refl eq_refl example_configured eq_refl eq_refl eq_refl).
Defined.

(** X21. When the down path [delete] finds exists and is not a file (a
    directory of that name), [delete] does not skip: it connects, fails
    to read the script, closes the client and throws, having sent no
    statement. *)
Theorem delete_down_path_not_a_file
    {R : Type} {RT : Runtime R} (env : Env) (id : string) (props : SchemaVersionState.t)
    (entries inside : list string) (p : string) (w : World R) (o1 : R) :
  fs env (path_join (__dirname env) "sql") = Some (Directory entries) ->
  optional_downPath
    (find_migration props (catalog (path_join (__dirname env) "sql") entries)) = Some p ->
  fs env p = Some (Directory inside) ->
  configured env ->
  client_connect (outside w) = (None, o1) ->
  exists e w',
    delete env id props w = (inl e, w')
    /\ queries w' = queries w
    /\ outside w' = snd (client_end o1).
Proof.
  intros Hdir Hp Hfile Hcfg Hconn.
  rewrite (delete_on_directory env id props entries w Hdir), Hp.
  rewrite (catalog_downPath_truthy _ _ _ _ Hp). unfold existsSync. rewrite Hfile.
  cbn [negb orb].
  unfold rollback, catch. rewrite withPgClient_configured by exact Hcfg.
  unfold finally, bind, connect, end_, lift_outside, readFileSync, throw, console_write,
    write_line.
  rewrite Hfile. cbn [outside queries console]. rewrite Hconn.
  cbn beta iota. cbn [outside queries console].
  destruct (client_end o1) as [[e2|] o2]; cbn beta iota; cbn [outside queries console snd];
    eexists; eexists; (split; [reflexivity|]); split; reflexivity.
Qed.

Lemma delete_down_path_not_a_file_witness :
  exists e w',
    delete nested_env "app-001-1700000000000" (example_state "001" "init" None)
      (example_world [])
    = (inl e, w')
    /\ queries w' = queries (example_world [])
    /\ outside w' = snd (client_end (outside (example_world []))).
Proof.
  exact (delete_down_path_not_a_file (RT := scripted_runtime) nested_env
           "app-001-1700000000000" (example_state "001" "init" None)
           ["V001__init.up.sql"; "V001__init.down.sql"] []
           "/app/sql/V001__init.down.sql" (example_world [])
           (outside (example_world []))
           eq_refl eq_refl eq_refl example_configured eq_refl).
Defined.
